(** * trmnl-web: the polling, backoff and cache layer of [src/lib/trmnl-api.ts]

    A shallow embedding of the API service of the TRMNL web client.  The
    browser's [localStorage], the wall clock and the network are the three
    effects of the module; they are threaded through a small state and
    exception monad, so that a [try]/[catch] block of the source is a
    [try_catch] of the model and a rejected promise is a [Raise].

    The file has four parts: the model, function by function as in the
    source, with the callers in [src/hooks/useTrmnl.ts] at its end; the
    vocabulary in which the properties are stated; the properties C1 to
    C10 and their proofs; further properties of the code. *)

From Stdlib Require Import ZArith String Ascii List Lia DecimalString DecimalPos.
From stdpp Require Import base option gmap strings.

Local Open Scope string_scope.
Local Open Scope Z_scope.

(** ** Data model *)

Inductive Environment := development | production.

Record Device := {
  id : string;
  name : string;
  api_key : string;
  friendly_id : option string;
}.

(** A value held where the code expects [Device[]].  The list comes from
    [response.json()] through an unchecked annotation and is stored as it
    came, so that besides an array it can be the JSON value [null], the one
    value whose [.length] throws. *)
Inductive DeviceList :=
  | Null
  | Array (items : list Device).

Record CurrentImage := {
  url : string;          (* base64 data URL *)
  originalUrl : string;  (* CDN URL from API *)
  filename : string;
  timestamp : Z;
}.

(** [number] fields hold integers: epoch milliseconds, seconds, and a
    retry counter that the module only ever sets to [0] or increments. *)
Record TrmnlState := {
  environment : Environment;
  devices : DeviceList;
  selectedDevice : option Device;
  currentImage : option CurrentImage;
  lastFetch : option Z;
  nextFetch : option Z;
  refreshRate : Z;
  retryCount : nat;
  retryAfter : option Z;
}.

(** [Partial<TrmnlState>]: [None] is a key that is [undefined] in the
    update; for a nullable field [Some None] is an explicit [null]. *)
Module Partial.
Record t := {
  environment : option Environment;
  devices : option DeviceList;
  selectedDevice : option (option Device);
  currentImage : option (option CurrentImage);
  lastFetch : option (option Z);
  nextFetch : option (option Z);
  refreshRate : option Z;
  retryCount : option nat;
  retryAfter : option (option Z);
}.

(** The object literal [{}]. *)
Definition empty : t :=
  {| environment := None; devices := None; selectedDevice := None;
     currentImage := None; lastFetch := None; nextFetch := None;
     refreshRate := None; retryCount := None; retryAfter := None |}.
End Partial.

Definition DEFAULT_REFRESH_RATE : Z := 30.

Definition HOSTS (e : Environment) : string :=
  match e with
  | development => "http://localhost:3000"
  | production => "https://usetrmnl.com"
  end.

(** ** The persistent store

    One slot per entry of [STORAGE_KEYS].  A slot is [None] when the key is
    absent (or holds text that [JSON.parse] rejects, which [getStorageItem]
    treats alike); otherwise it holds the value whose JSON text is stored.
    [localStorage.setItem] is taken to succeed, so the [catch] of
    [setStorageItem], which only logs, has no counterpart here.  The
    first-setup object is a finite map from device ids to booleans (a
    JavaScript object holds no own property under the key [__proto__];
    that id is outside the model). *)
Record Storage := {
  trmnl_environment : option Environment;
  trmnl_devices : option DeviceList;
  trmnl_selectedDevice : option (option Device);
  trmnl_currentImage : option (option CurrentImage);
  trmnl_lastFetch : option (option Z);
  trmnl_nextFetch : option (option Z);
  trmnl_refreshRate : option Z;
  trmnl_retryCount : option nat;
  trmnl_retryAfter : option (option Z);
  trmnl_firstSetupComplete : option (gmap string bool);
}.

Definition empty_storage : Storage :=
  {| trmnl_environment := None; trmnl_devices := None;
     trmnl_selectedDevice := None; trmnl_currentImage := None;
     trmnl_lastFetch := None; trmnl_nextFetch := None;
     trmnl_refreshRate := None; trmnl_retryCount := None;
     trmnl_retryAfter := None; trmnl_firstSetupComplete := None |}.

(** A storage key is the pair of the slot's reader and writer. *)
Record Key (T : Type) := {
  read : Storage -> option T;
  write : option T -> Storage -> Storage;
}.
Arguments read {T} _ _.
Arguments write {T} _ _ _.

Module STORAGE_KEYS.
Definition environment : Key Environment :=
  {| read := trmnl_environment;
     write v s :=
       {| trmnl_environment := v; trmnl_devices := trmnl_devices s;
          trmnl_selectedDevice := trmnl_selectedDevice s;
          trmnl_currentImage := trmnl_currentImage s;
          trmnl_lastFetch := trmnl_lastFetch s;
          trmnl_nextFetch := trmnl_nextFetch s;
          trmnl_refreshRate := trmnl_refreshRate s;
          trmnl_retryCount := trmnl_retryCount s;
          trmnl_retryAfter := trmnl_retryAfter s;
          trmnl_firstSetupComplete := trmnl_firstSetupComplete s |} |}.
Definition devices : Key DeviceList :=
  {| read := trmnl_devices;
     write v s :=
       {| trmnl_environment := trmnl_environment s; trmnl_devices := v;
          trmnl_selectedDevice := trmnl_selectedDevice s;
          trmnl_currentImage := trmnl_currentImage s;
          trmnl_lastFetch := trmnl_lastFetch s;
          trmnl_nextFetch := trmnl_nextFetch s;
          trmnl_refreshRate := trmnl_refreshRate s;
          trmnl_retryCount := trmnl_retryCount s;
          trmnl_retryAfter := trmnl_retryAfter s;
          trmnl_firstSetupComplete := trmnl_firstSetupComplete s |} |}.
Definition selectedDevice : Key (option Device) :=
  {| read := trmnl_selectedDevice;
     write v s :=
       {| trmnl_environment := trmnl_environment s;
          trmnl_devices := trmnl_devices s; trmnl_selectedDevice := v;
          trmnl_currentImage := trmnl_currentImage s;
          trmnl_lastFetch := trmnl_lastFetch s;
          trmnl_nextFetch := trmnl_nextFetch s;
          trmnl_refreshRate := trmnl_refreshRate s;
          trmnl_retryCount := trmnl_retryCount s;
          trmnl_retryAfter := trmnl_retryAfter s;
          trmnl_firstSetupComplete := trmnl_firstSetupComplete s |} |}.
Definition currentImage : Key (option CurrentImage) :=
  {| read := trmnl_currentImage;
     write v s :=
       {| trmnl_environment := trmnl_environment s;
          trmnl_devices := trmnl_devices s;
          trmnl_selectedDevice := trmnl_selectedDevice s;
          trmnl_currentImage := v;
          trmnl_lastFetch := trmnl_lastFetch s;
          trmnl_nextFetch := trmnl_nextFetch s;
          trmnl_refreshRate := trmnl_refreshRate s;
          trmnl_retryCount := trmnl_retryCount s;
          trmnl_retryAfter := trmnl_retryAfter s;
          trmnl_firstSetupComplete := trmnl_firstSetupComplete s |} |}.
Definition lastFetch : Key (option Z) :=
  {| read := trmnl_lastFetch;
     write v s :=
       {| trmnl_environment := trmnl_environment s;
          trmnl_devices := trmnl_devices s;
          trmnl_selectedDevice := trmnl_selectedDevice s;
          trmnl_currentImage := trmnl_currentImage s;
          trmnl_lastFetch := v;
          trmnl_nextFetch := trmnl_nextFetch s;
          trmnl_refreshRate := trmnl_refreshRate s;
          trmnl_retryCount := trmnl_retryCount s;
          trmnl_retryAfter := trmnl_retryAfter s;
          trmnl_firstSetupComplete := trmnl_firstSetupComplete s |} |}.
Definition nextFetch : Key (option Z) :=
  {| read := trmnl_nextFetch;
     write v s :=
       {| trmnl_environment := trmnl_environment s;
          trmnl_devices := trmnl_devices s;
          trmnl_selectedDevice := trmnl_selectedDevice s;
          trmnl_currentImage := trmnl_currentImage s;
          trmnl_lastFetch := trmnl_lastFetch s;
          trmnl_nextFetch := v;
          trmnl_refreshRate := trmnl_refreshRate s;
          trmnl_retryCount := trmnl_retryCount s;
          trmnl_retryAfter := trmnl_retryAfter s;
          trmnl_firstSetupComplete := trmnl_firstSetupComplete s |} |}.
Definition refreshRate : Key Z :=
  {| read := trmnl_refreshRate;
     write v s :=
       {| trmnl_environment := trmnl_environment s;
          trmnl_devices := trmnl_devices s;
          trmnl_selectedDevice := trmnl_selectedDevice s;
          trmnl_currentImage := trmnl_currentImage s;
          trmnl_lastFetch := trmnl_lastFetch s;
          trmnl_nextFetch := trmnl_nextFetch s;
          trmnl_refreshRate := v;
          trmnl_retryCount := trmnl_retryCount s;
          trmnl_retryAfter := trmnl_retryAfter s;
          trmnl_firstSetupComplete := trmnl_firstSetupComplete s |} |}.
Definition retryCount : Key nat :=
  {| read := trmnl_retryCount;
     write v s :=
       {| trmnl_environment := trmnl_environment s;
          trmnl_devices := trmnl_devices s;
          trmnl_selectedDevice := trmnl_selectedDevice s;
          trmnl_currentImage := trmnl_currentImage s;
          trmnl_lastFetch := trmnl_lastFetch s;
          trmnl_nextFetch := trmnl_nextFetch s;
          trmnl_refreshRate := trmnl_refreshRate s;
          trmnl_retryCount := v;
          trmnl_retryAfter := trmnl_retryAfter s;
          trmnl_firstSetupComplete := trmnl_firstSetupComplete s |} |}.
Definition retryAfter : Key (option Z) :=
  {| read := trmnl_retryAfter;
     write v s :=
       {| trmnl_environment := trmnl_environment s;
          trmnl_devices := trmnl_devices s;
          trmnl_selectedDevice := trmnl_selectedDevice s;
          trmnl_currentImage := trmnl_currentImage s;
          trmnl_lastFetch := trmnl_lastFetch s;
          trmnl_nextFetch := trmnl_nextFetch s;
          trmnl_refreshRate := trmnl_refreshRate s;
          trmnl_retryCount := trmnl_retryCount s;
          trmnl_retryAfter := v;
          trmnl_firstSetupComplete := trmnl_firstSetupComplete s |} |}.
Definition firstSetupComplete : Key (gmap string bool) :=
  {| read := trmnl_firstSetupComplete;
     write v s :=
       {| trmnl_environment := trmnl_environment s;
          trmnl_devices := trmnl_devices s;
          trmnl_selectedDevice := trmnl_selectedDevice s;
          trmnl_currentImage := trmnl_currentImage s;
          trmnl_lastFetch := trmnl_lastFetch s;
          trmnl_nextFetch := trmnl_nextFetch s;
          trmnl_refreshRate := trmnl_refreshRate s;
          trmnl_retryCount := trmnl_retryCount s;
          trmnl_retryAfter := trmnl_retryAfter s;
          trmnl_firstSetupComplete := v |} |}.
End STORAGE_KEYS.

(** ** The world outside the module *)

Record Request := {
  req_url : string;
  req_headers : list (string * string);
  req_credentials : bool;   (* [credentials: "include"] *)
}.

(** A response that arrived: its status line, and its body as the reader
    the caller applies to it ([json()], or [blob()] followed by the
    conversion to a data URL) delivers it; [None] when that reader rejects. *)
Record Response (A : Type) := {
  status : Z;
  body : option A;
}.
Arguments status {A} _.
Arguments body {A} _.

Definition ok {A} (r : Response A) : bool :=
  (200 <=? status r) && (status r <=? 299).

(** The JSON body of the screen endpoints: [{image_url, filename?,
    refresh_rate?}].  A body that is no such object counts as one whose
    reading fails: the property reads on [null] throw inside the same [try]
    as a rejected [json()]. *)
Record ScreenData := {
  image_url : string;
  data_filename : option string;
  refresh_rate : option Z;
}.

(** What the surroundings do during one call of an operation: the readings
    of the clock, in the order they are taken, and for each kind of request
    the reply it gets ([None]: [fetch] rejects, a network-level failure). *)
Record Env := {
  clock : nat -> N;
  api_reply : option (Response ScreenData);
  image_reply : option (Response string);
  devices_reply : option (Response DeviceList);
}.

Record World := {
  localStorage : Storage;
  ticks : nat;               (* clock readings taken so far *)
  requests : list Request;   (* requests sent so far, latest first *)
}.

Inductive Error :=
  | TypeError                       (* a property read of [null] *)
  | NetworkFailure
  | HttpError (status : Z)          (* [HTTP error: ${status}] *)
  | ImageFetchFailed (status : Z)   (* [Failed to fetch image: ${status}] *)
  | BodyRejected.

Inductive Outcome (A : Type) :=
  | Return (a : A)
  | Raise (e : Error).
Arguments Return {A} _.
Arguments Raise {A} _.

Definition M (A : Type) : Type := World -> Outcome A * World.

Definition ret {A} (a : A) : M A := fun w => (Return a, w).

Definition bind {A B} (m : M A) (k : A -> M B) : M B :=
  fun w =>
    match m w with
    | (Return a, w') => k a w'
    | (Raise e, w') => (Raise e, w')
    end.

Definition throw {A} (e : Error) : M A := fun w => (Raise e, w).

Definition try_catch {A} (m : M A) (handler : Error -> M A) : M A :=
  fun w =>
    match m w with
    | (Return a, w') => (Return a, w')
    | (Raise e, w') => handler e w'
    end.

Declare Scope js_scope.
Delimit Scope js_scope with js.
Notation "x <- m ;; k" := (bind m (fun x => k))
  (at level 100, m at next level, right associativity) : js_scope.
Notation "m ;; k" := (bind m (fun _ => k))
  (at level 100, right associativity) : js_scope.
Local Open Scope js_scope.

Definition Date_now (env : Env) : M Z :=
  fun w =>
    (Return (Z.of_N (clock env (ticks w))),
     {| localStorage := localStorage w; ticks := S (ticks w);
        requests := requests w |}).

Definition fetch {A} (reply : option (Response A)) (req : Request)
  : M (Response A) :=
  fun w =>
    let w' := {| localStorage := localStorage w; ticks := ticks w;
                 requests := req :: requests w |} in
    match reply with
    | Some r => (Return r, w')
    | None => (Raise NetworkFailure, w')
    end.

(** [devices.length] *)
Definition length_of (devices : DeviceList) : M nat :=
  match devices with
  | Array items => ret (length items)
  | Null => throw TypeError
  end.

(** [devices[0]] *)
Definition element_0 (devices : DeviceList) : option Device :=
  match devices with
  | Array (first :: _) => Some first
  | _ => None
  end.

(** [await response.json()], and [blob()] with [blobToDataUrl]. *)
Definition read_body {A} (r : Response A) : M A :=
  match body r with
  | Some a => ret a
  | None => throw BodyRejected
  end.

(** ** Helper functions for localStorage *)

Definition getStorageItem {T} (key : Key T) (defaultValue : T) : M T :=
  fun w =>
    (Return (match read key (localStorage w) with
             | Some item => item
             | None => defaultValue
             end), w).

Definition setStorageItem {T} (key : Key T) (value : T) : M unit :=
  fun w =>
    (Return tt,
     {| localStorage := write key (Some value) (localStorage w);
        ticks := ticks w; requests := requests w |}).

(** Get the current state from localStorage *)
Definition getState : M TrmnlState :=
  environment <- getStorageItem STORAGE_KEYS.environment production ;;
  devices <- getStorageItem STORAGE_KEYS.devices (Array []) ;;
  selectedDevice <- getStorageItem STORAGE_KEYS.selectedDevice None ;;
  currentImage <- getStorageItem STORAGE_KEYS.currentImage None ;;
  lastFetch <- getStorageItem STORAGE_KEYS.lastFetch None ;;
  nextFetch <- getStorageItem STORAGE_KEYS.nextFetch None ;;
  refreshRate <-
    getStorageItem STORAGE_KEYS.refreshRate DEFAULT_REFRESH_RATE ;;
  retryCount <- getStorageItem STORAGE_KEYS.retryCount 0%nat ;;
  retryAfter <- getStorageItem STORAGE_KEYS.retryAfter None ;;
  ret {| environment := environment; devices := devices;
         selectedDevice := selectedDevice; currentImage := currentImage;
         lastFetch := lastFetch; nextFetch := nextFetch;
         refreshRate := refreshRate; retryCount := retryCount;
         retryAfter := retryAfter |}.

(** [if (value !== undefined) setStorageItem(key, value)] *)
Definition set_if_defined {T} (key : Key T) (value : option T) : M unit :=
  match value with
  | Some v => setStorageItem key v
  | None => ret tt
  end.

(** Update state in localStorage *)
Definition updateState (updates : Partial.t) : M TrmnlState :=
  set_if_defined STORAGE_KEYS.environment (Partial.environment updates) ;;
  set_if_defined STORAGE_KEYS.devices (Partial.devices updates) ;;
  set_if_defined STORAGE_KEYS.selectedDevice (Partial.selectedDevice updates) ;;
  set_if_defined STORAGE_KEYS.currentImage (Partial.currentImage updates) ;;
  set_if_defined STORAGE_KEYS.lastFetch (Partial.lastFetch updates) ;;
  set_if_defined STORAGE_KEYS.nextFetch (Partial.nextFetch updates) ;;
  set_if_defined STORAGE_KEYS.refreshRate (Partial.refreshRate updates) ;;
  set_if_defined STORAGE_KEYS.retryCount (Partial.retryCount updates) ;;
  set_if_defined STORAGE_KEYS.retryAfter (Partial.retryAfter updates) ;;
  getState.

(** Clear all stored data *)
Definition clearState : M unit :=
  fun w =>
    (Return tt,
     {| localStorage := empty_storage; ticks := ticks w;
        requests := requests w |}).

(** ** JavaScript idioms used by the module *)

(** Truthiness of a string and of a number: [""] and [0] are falsy. *)
Definition truthy_string (s : string) : bool := negb (String.eqb s "").
Definition truthy_number (n : Z) : bool := negb (n =? 0).

(** [value || fallback], for an optional string and an optional number. *)
Definition or_string (value : option string) (fallback : string) : string :=
  match value with
  | Some s => if truthy_string s then s else fallback
  | None => fallback
  end.

Definition or_number (value : option Z) (fallback : Z) : Z :=
  match value with
  | Some n => if truthy_number n then n else fallback
  | None => fallback
  end.

(** [currentImage?.url || null] *)
Definition cached_url (currentImage : option CurrentImage) : option string :=
  match currentImage with
  | Some img => if truthy_string (url img) then Some (url img) else None
  | None => None
  end.

(** [selectedDevice?.api_key], kept only when it is truthy. *)
Definition resolve_api_key (selectedDevice : option Device) : option string :=
  match selectedDevice with
  | Some d => if truthy_string (api_key d) then Some (api_key d) else None
  | None => None
  end.

(** [!forceRefresh && currentImage && currentImage.originalUrl === imageUrl]:
    the cached image when the test holds. *)
Definition unchanged_image (forceRefresh : bool)
  (currentImage : option CurrentImage) (imageUrl : string)
  : option CurrentImage :=
  match currentImage with
  | Some img =>
      if negb forceRefresh && String.eqb (originalUrl img) imageUrl
      then Some img else None
  | None => None
  end.

(** The object literal [{ retryCount, retryAfter }]. *)
Definition retry_update (retryCount : nat) (retryAfter : option Z)
  : Partial.t :=
  {| Partial.environment := None; Partial.devices := None;
     Partial.selectedDevice := None; Partial.currentImage := None;
     Partial.lastFetch := None; Partial.nextFetch := None;
     Partial.refreshRate := None;
     Partial.retryCount := Some retryCount;
     Partial.retryAfter := Some retryAfter |}.

(** [{ refreshRate, lastFetch: currentTime, nextFetch, retryCount: 0,
    retryAfter: null }] *)
Definition timestamps_update (refreshRate currentTime nextFetch : Z)
  : Partial.t :=
  {| Partial.environment := None; Partial.devices := None;
     Partial.selectedDevice := None; Partial.currentImage := None;
     Partial.lastFetch := Some (Some currentTime);
     Partial.nextFetch := Some (Some nextFetch);
     Partial.refreshRate := Some refreshRate;
     Partial.retryCount := Some 0%nat;
     Partial.retryAfter := Some None |}.

(** [{ currentImage: {...}, lastFetch: currentTime, nextFetch, refreshRate,
    retryCount: 0, retryAfter: null }] *)
Definition image_update (image : CurrentImage)
  (refreshRate currentTime nextFetch : Z) : Partial.t :=
  {| Partial.environment := None; Partial.devices := None;
     Partial.selectedDevice := None;
     Partial.currentImage := Some (Some image);
     Partial.lastFetch := Some (Some currentTime);
     Partial.nextFetch := Some (Some nextFetch);
     Partial.refreshRate := Some refreshRate;
     Partial.retryCount := Some 0%nat;
     Partial.retryAfter := Some None |}.

(** [Math.min(1000 * Math.pow(2, newRetryCount), 300000)] *)
Definition backoffMs (newRetryCount : nat) : Z :=
  Z.min (1000 * 2 ^ Z.of_nat newRetryCount) 300000.

(** [retryAfter && Date.now() < retryAfter]: the clock is read only when
    [retryAfter] is truthy. *)
Definition in_backoff (env : Env) (retryAfter : option Z) : M bool :=
  match retryAfter with
  | Some t =>
      if truthy_number t then now <- Date_now env ;; ret (now <? t)
      else ret false
  | None => ret false
  end.

(** ** URL construction *)

Definition getBaseUrl (environment : Environment) : string :=
  HOSTS environment.

Definition getDevicesUrl (environment : Environment) : string :=
  getBaseUrl environment ++ "/devices.json".

Definition getApiUrl (environment : Environment) : string :=
  getBaseUrl environment ++ "/api/current_screen".

Definition getLoginUrl (environment : Environment) : string :=
  getBaseUrl environment ++ "/login".

(** ** First-setup bookkeeping *)

(** Check if device has completed first setup *)
Definition hasCompletedFirstSetup (deviceId : string) : M bool :=
  firstSetupMap <- getStorageItem STORAGE_KEYS.firstSetupComplete ∅ ;;
  ret (bool_decide (firstSetupMap !! deviceId = Some true)).

(** Mark device as having completed first setup *)
Definition markFirstSetupComplete (deviceId : string) : M unit :=
  firstSetupMap <- getStorageItem STORAGE_KEYS.firstSetupComplete ∅ ;;
  setStorageItem STORAGE_KEYS.firstSetupComplete
    (<[deviceId := true]> firstSetupMap).

(** ** Operations *)

(** Fetch devices from TRMNL API *)
Definition fetchDevices (env : Env) (environment : Environment)
  : M DeviceList :=
  let url := getDevicesUrl environment in
  storedDevices <- getStorageItem STORAGE_KEYS.devices (Array []) ;;
  try_catch
    (response <- fetch (devices_reply env)
         {| req_url := url; req_headers := []; req_credentials := true |} ;;
     if (status response =? 401) || (status response =? 403) then
       n <- length_of storedDevices ;;
       if (0 <? n)%nat then ret storedDevices else ret Null
     else if negb (ok response) then
       n <- length_of storedDevices ;;
       if (0 <? n)%nat then ret storedDevices
       else throw (HttpError (status response))
     else
       devices <- read_body response ;;
       updateState
         {| Partial.environment := None; Partial.devices := Some devices;
            Partial.selectedDevice := None; Partial.currentImage := None;
            Partial.lastFetch := None; Partial.nextFetch := None;
            Partial.refreshRate := None; Partial.retryCount := None;
            Partial.retryAfter := None |} ;;
       state <- getState ;;
       match selectedDevice state with
       | None =>
           n <- length_of devices ;;
           if (0 <? n)%nat then
             updateState
               {| Partial.environment := None; Partial.devices := None;
                  Partial.selectedDevice := Some <$> element_0 devices;
                  Partial.currentImage := None;
                  Partial.lastFetch := None; Partial.nextFetch := None;
                  Partial.refreshRate := None; Partial.retryCount := None;
                  Partial.retryAfter := None |} ;;
             ret tt
           else ret tt
       | Some _ => ret tt
       end ;;
       ret devices)
    (fun error =>
       n <- length_of storedDevices ;;
       if (0 <? n)%nat then ret storedDevices else ret Null).

(** Fetch the next screen image (triggers screen update on device) *)
Definition fetchNextScreen (env : Env) : M (option string) :=
  state <- getState ;;
  let retryCount := retryCount state in
  backoff <- in_backoff env (retryAfter state) ;;
  if backoff then ret None
  else
    match resolve_api_key (selectedDevice state) with
    | None => ret None
    | Some apiKey =>
        let API_URL := getBaseUrl (environment state) ++ "/api/display" in
        try_catch
          (response <- fetch (api_reply env)
               {| req_url := API_URL;
                  req_headers := [("Access-Token", apiKey);
                                  ("Cache-Control", "no-cache")];
                  req_credentials := false |} ;;
           if (status response =? 401) || (status response =? 403) then
             updateState (retry_update 0 None) ;;
             ret None
           else if status response =? 429 then
             let newRetryCount := (retryCount + 1)%nat in
             now <- Date_now env ;;
             let retryAfterTime := now + backoffMs newRetryCount in
             updateState (retry_update newRetryCount (Some retryAfterTime)) ;;
             ret None
           else if negb (ok response) then
             throw (HttpError (status response))
           else
             data <- read_body response ;;
             let imageUrl := image_url data in
             let filename := or_string (data_filename data) "display.jpg" in
             let refreshRate :=
               or_number (refresh_rate data) DEFAULT_REFRESH_RATE in
             currentTime <- Date_now env ;;
             imageResponse <- fetch (image_reply env)
               {| req_url := imageUrl; req_headers := [];
                  req_credentials := false |} ;;
             if negb (ok imageResponse) then
               throw (ImageFetchFailed (status imageResponse))
             else
               imageDataUrl <- read_body imageResponse ;;
               let nextFetch := currentTime + refreshRate * 1000 in
               updateState
                 (image_update
                    {| url := imageDataUrl; originalUrl := imageUrl;
                       filename := filename; timestamp := currentTime |}
                    refreshRate currentTime nextFetch) ;;
               ret (Some imageDataUrl))
          (fun error =>
             let newRetryCount := (retryCount + 1)%nat in
             now <- Date_now env ;;
             let retryAfterTime := now + backoffMs newRetryCount in
             updateState (retry_update newRetryCount (Some retryAfterTime)) ;;
             ret None)
    end.

(** Trigger special function (e.g., previous screen) *)
Definition triggerSpecialFunction (env : Env) : M bool :=
  state <- getState ;;
  match resolve_api_key (selectedDevice state) with
  | None => ret false
  | Some apiKey =>
      let API_URL := getBaseUrl (environment state) ++ "/api/display" in
      try_catch
        (response <- fetch (api_reply env)
             {| req_url := API_URL;
                req_headers := [("Access-Token", apiKey);
                                ("Special-Function", "true");
                                ("Cache-Control", "no-cache")];
                req_credentials := false |} ;;
         if (status response =? 401) || (status response =? 403) then
           ret false
         else if negb (ok response) then
           throw (HttpError (status response))
         else ret true)
        (fun error => ret false)
  end.

(** Fetch the current screen image *)
Definition fetchImage (env : Env) (forceRefresh : bool) : M (option string) :=
  state <- getState ;;
  let currentImage := currentImage state in
  let retryCount := retryCount state in
  backoff <- in_backoff env (retryAfter state) ;;
  if backoff && negb forceRefresh then ret (cached_url currentImage)
  else
    match resolve_api_key (selectedDevice state) with
    | None => ret None
    | Some apiKey =>
        let deviceId := or_string (id <$> selectedDevice state) "unknown" in
        completed <- hasCompletedFirstSetup deviceId ;;
        let isFirstSetup := negb completed in
        let API_URL :=
          if isFirstSetup
          then getBaseUrl (environment state) ++ "/api/display"
          else getApiUrl (environment state) in
        try_catch
          (response <- fetch (api_reply env)
               {| req_url := API_URL;
                  req_headers := [("access-token", apiKey);
                                  ("Cache-Control", "no-cache")];
                  req_credentials := false |} ;;
           if (status response =? 401) || (status response =? 403) then
             updateState (retry_update 0 None) ;;
             ret None
           else if status response =? 429 then
             let newRetryCount := (retryCount + 1)%nat in
             now <- Date_now env ;;
             let retryAfterTime := now + backoffMs newRetryCount in
             updateState (retry_update newRetryCount (Some retryAfterTime)) ;;
             ret (cached_url currentImage)
           else if negb (ok response) then
             throw (HttpError (status response))
           else
             data <- read_body response ;;
             let imageUrl := image_url data in
             let filename := or_string (data_filename data) "display.jpg" in
             let refreshRate :=
               or_number (refresh_rate data) DEFAULT_REFRESH_RATE in
             currentTime <- Date_now env ;;
             match unchanged_image forceRefresh currentImage imageUrl with
             | Some img =>
                 let nextFetch := currentTime + refreshRate * 1000 in
                 updateState
                   (timestamps_update refreshRate currentTime nextFetch) ;;
                 ret (Some (url img))
             | None =>
                 imageResponse <- fetch (image_reply env)
                   {| req_url := imageUrl; req_headers := [];
                      req_credentials := false |} ;;
                 if negb (ok imageResponse) then
                   throw (ImageFetchFailed (status imageResponse))
                 else
                   imageDataUrl <- read_body imageResponse ;;
                   let nextFetch := currentTime + refreshRate * 1000 in
                   updateState
                     (image_update
                        {| url := imageDataUrl; originalUrl := imageUrl;
                           filename := filename; timestamp := currentTime |}
                        refreshRate currentTime nextFetch) ;;
                   (if isFirstSetup then markFirstSetupComplete deviceId
                    else ret tt) ;;
                   ret (Some imageDataUrl)
             end)
          (fun error =>
             let newRetryCount := (retryCount + 1)%nat in
             now <- Date_now env ;;
             let retryAfterTime := now + backoffMs newRetryCount in
             updateState (retry_update newRetryCount (Some retryAfterTime)) ;;
             ret (cached_url currentImage))
    end.

(** Select a device *)
Definition selectDevice (device : Device) : M unit :=
  updateState
    {| Partial.environment := None; Partial.devices := None;
       Partial.selectedDevice := Some (Some device);
       Partial.currentImage := None;
       Partial.lastFetch := None; Partial.nextFetch := None;
       Partial.refreshRate := None;
       Partial.retryCount := Some 0%nat;
       Partial.retryAfter := Some None |} ;;
  ret tt.

(** Set the environment *)
Definition setEnvironment (environment : Environment) : M unit :=
  updateState
    {| Partial.environment := Some environment; Partial.devices := None;
       Partial.selectedDevice := None; Partial.currentImage := None;
       Partial.lastFetch := None; Partial.nextFetch := None;
       Partial.refreshRate := None; Partial.retryCount := None;
       Partial.retryAfter := None |} ;;
  ret tt.

(** ** Countdown display *)

(** [n.toString()] of an integer. *)
Definition toString (n : Z) : string :=
  NilZero.string_of_int (Z.to_int n).

Fixpoint repeat_char (c : ascii) (k : nat) : string :=
  match k with
  | O => EmptyString
  | S k' => String c (repeat_char c k')
  end.

(** [s.padStart(targetLength, c)] for a one-character filler. *)
Definition padStart (targetLength : nat) (c : ascii) (s : string) : string :=
  repeat_char c (targetLength - String.length s) ++ s.

Definition pad (n : Z) : string := padStart 2 "0"%char (toString n).

(** Format time remaining for countdown display *)
Definition formatTimeRemaining (env : Env) (nextFetch : option Z)
  : M string :=
  match nextFetch with
  | None => ret "Unknown"
  | Some nextFetch =>
      if negb (truthy_number nextFetch) then ret "Unknown"
      else
        now <- Date_now env ;;
        let remaining := Z.max 0 (nextFetch - now) in
        let totalSeconds := remaining / 1000 in
        let hours := totalSeconds / 3600 in
        let minutes := Z.rem totalSeconds 3600 / 60 in
        let seconds := Z.rem totalSeconds 60 in
        if 0 <? hours then
          ret (pad hours ++ ":" ++ pad minutes ++ ":" ++ pad seconds)
        else
          ret (pad minutes ++ ":" ++ pad seconds)
  end.

(** ** The callers in [src/hooks/useTrmnl.ts]

    The hook adds React state around the operations above; what it does to
    the store is kept here. *)

(** Save manual API key *)
Definition saveManualApiKey (env : Env) (apiKey : string) : M unit :=
  let manualDevice :=
    {| id := "manual"; name := "Manual Device"; api_key := apiKey;
       friendly_id := None |} in
  updateState
    {| Partial.environment := None;
       Partial.devices := Some (Array [manualDevice]);
       Partial.selectedDevice := Some (Some manualDevice);
       Partial.currentImage := None;
       Partial.lastFetch := None; Partial.nextFetch := None;
       Partial.refreshRate := None;
       Partial.retryCount := Some 0%nat;
       Partial.retryAfter := Some None |} ;;
  try_catch
    (imageUrl <- fetchImage env true ;; ret tt)
    (fun err => ret tt).

(** The operations through which the application touches the store. *)
Inductive Operation :=
  | FetchDevices (environment : Environment)
  | FetchNextScreen
  | TriggerSpecialFunction
  | FetchImage (forceRefresh : bool)
  | SelectDevice (device : Device)
  | SetEnvironment (environment : Environment)
  | SaveManualApiKey (apiKey : string)
  | ClearState.

Definition perform (env : Env) (op : Operation) : M unit :=
  match op with
  | FetchDevices environment => fetchDevices env environment ;; ret tt
  | FetchNextScreen => fetchNextScreen env ;; ret tt
  | TriggerSpecialFunction => triggerSpecialFunction env ;; ret tt
  | FetchImage forceRefresh => fetchImage env forceRefresh ;; ret tt
  | SelectDevice device => selectDevice device
  | SetEnvironment environment => setEnvironment environment
  | SaveManualApiKey apiKey => saveManualApiKey env apiKey
  | ClearState => clearState
  end.

(** A session: operations performed one after the other, each in its own
    surroundings. *)
Definition perform_all (script : list (Env * Operation)) (w : World)
  : World :=
  fold_left (fun w step => (perform step.1 step.2 w).2) script w.

(** ** The React state of [useTrmnl]

    The hook keeps a copy of the state record, a loading flag and an error
    text in React state, and a guard against overlapping fetches in a ref.
    A call of one of its callbacks is followed from its start to its end,
    the values being those the setters were last given; the renders in
    between are not part of the model, nor is the timer that re-opens the
    guard one second after [loadImage] has ended. *)

(** The texts that [setError] is given. *)
Inductive Message :=
  | CheckApiKey      (* "Failed to load image. Please check your API key." *)
  | NoDevicesFound   (* "No devices found. Please enter your API key manually." *)
  | Thrown (err : Error).   (* [err.message] *)

Module Hook.
Record t := {
  state : TrmnlState;
  isLoading : bool;
  error : option Message;
  fetchInProgressRef : bool;
}.
End Hook.

Definition setState (state : TrmnlState) (h : Hook.t) : Hook.t :=
  {| Hook.state := state; Hook.isLoading := Hook.isLoading h;
     Hook.error := Hook.error h;
     Hook.fetchInProgressRef := Hook.fetchInProgressRef h |}.

Definition setIsLoading (isLoading : bool) (h : Hook.t) : Hook.t :=
  {| Hook.state := Hook.state h; Hook.isLoading := isLoading;
     Hook.error := Hook.error h;
     Hook.fetchInProgressRef := Hook.fetchInProgressRef h |}.

Definition setError (error : option Message) (h : Hook.t) : Hook.t :=
  {| Hook.state := Hook.state h; Hook.isLoading := Hook.isLoading h;
     Hook.error := error;
     Hook.fetchInProgressRef := Hook.fetchInProgressRef h |}.

(** [fetchInProgressRef.current = value] *)
Definition set_fetchInProgressRef (value : bool) (h : Hook.t) : Hook.t :=
  {| Hook.state := Hook.state h; Hook.isLoading := Hook.isLoading h;
     Hook.error := Hook.error h; Hook.fetchInProgressRef := value |}.

(** Refresh state from localStorage *)
Definition refreshState (h : Hook.t) : M Hook.t :=
  state <- getState ;;
  ret (setState state h).

(** [!imageUrl] and [!devices || devices.length === 0] *)
Definition no_image (imageUrl : option string) : bool :=
  match imageUrl with
  | Some s => negb (truthy_string s)
  | None => true
  end.

Definition no_devices (devices : DeviceList) : bool :=
  match devices with
  | Null => true
  | Array items => (length items =? 0)%nat
  end.

(** Load devices *)
Definition loadDevices (env : Env) (h : Hook.t) : M Hook.t :=
  let environment := environment (Hook.state h) in
  let h := setError None (setIsLoading true h) in
  h <- try_catch
         (devices <- fetchDevices env environment ;;
          let h :=
            if no_devices devices then setError (Some NoDevicesFound) h
            else h in
          refreshState h)
         (fun err => ret (setError (Some (Thrown err)) h)) ;;
  ret (setIsLoading false h).

(** Load image *)
Definition loadImage (env : Env) (forceRefresh : bool) (h : Hook.t)
  : M Hook.t :=
  if Hook.fetchInProgressRef h then ret h
  else
    let h :=
      setError None (setIsLoading true (set_fetchInProgressRef true h)) in
    h <- try_catch
           (imageUrl <- fetchImage env forceRefresh ;;
            let h :=
              if no_image imageUrl then setError (Some CheckApiKey) h
              else h in
            refreshState h)
           (fun err => ret (setError (Some (Thrown err)) h)) ;;
    ret (setIsLoading false h).

(** * Vocabulary of the properties *)

(** ** Running the store operations *)

(** The state record that [getState] assembles from a store. *)
Definition state_of (s : Storage) : TrmnlState :=
  {| environment := default production (trmnl_environment s);
     devices := default (Array []) (trmnl_devices s);
     selectedDevice := default None (trmnl_selectedDevice s);
     currentImage := default None (trmnl_currentImage s);
     lastFetch := default None (trmnl_lastFetch s);
     nextFetch := default None (trmnl_nextFetch s);
     refreshRate := default DEFAULT_REFRESH_RATE (trmnl_refreshRate s);
     retryCount := default 0%nat (trmnl_retryCount s);
     retryAfter := default None (trmnl_retryAfter s) |}.

(** The effect of one guarded write of [updateState] on the store. *)
Definition store {T} (key : Key T) (value : option T) (s : Storage)
  : Storage :=
  match value with
  | Some v => write key (Some v) s
  | None => s
  end.

(** The store after all nine guarded writes of [updateState]. *)
Definition apply_updates (u : Partial.t) (s : Storage) : Storage :=
  store STORAGE_KEYS.retryAfter (Partial.retryAfter u)
 (store STORAGE_KEYS.retryCount (Partial.retryCount u)
 (store STORAGE_KEYS.refreshRate (Partial.refreshRate u)
 (store STORAGE_KEYS.nextFetch (Partial.nextFetch u)
 (store STORAGE_KEYS.lastFetch (Partial.lastFetch u)
 (store STORAGE_KEYS.currentImage (Partial.currentImage u)
 (store STORAGE_KEYS.selectedDevice (Partial.selectedDevice u)
 (store STORAGE_KEYS.devices (Partial.devices u)
 (store STORAGE_KEYS.environment (Partial.environment u) s)))))))).

Definition with_storage (s : Storage) (w : World) : World :=
  {| localStorage := s; ticks := ticks w; requests := requests w |}.

(** A value that an update leaves alone: when the update does not give the
    key, the value after equals the value before. *)
Definition retains {T V} (given : option T) (before after : V) : Prop :=
  given = None -> after = before.

(** ** Postconditions of a run *)

(** [post m w Q]: running [m] in world [w] ends in an outcome and a world
    that satisfy [Q]. *)
Definition post {A} (m : M A) (w : World) (Q : Outcome A -> World -> Prop)
  : Prop :=
  Q (m w).1 (m w).2.

(** The world after one more clock reading, and after one more request. *)
Definition tick (w : World) : World :=
  {| localStorage := localStorage w; ticks := S (ticks w);
     requests := requests w |}.

Definition sent (req : Request) (w : World) : World :=
  {| localStorage := localStorage w; ticks := ticks w;
     requests := req :: requests w |}.

(** The reading that [Date.now()] returns in world [w]. *)
Definition now_at (env : Env) (w : World) : Z := Z.of_N (clock env (ticks w)).

(** The state record as the operations read it from the store of [w]. *)
Definition stored (w : World) : TrmnlState := state_of (localStorage w).

(** ** Reading a world after a run *)

(** The state record after an update, field by field. *)
Definition merge (u : Partial.t) (st : TrmnlState) : TrmnlState :=
  {| environment := default (environment st) (Partial.environment u);
     devices := default (devices st) (Partial.devices u);
     selectedDevice := default (selectedDevice st) (Partial.selectedDevice u);
     currentImage := default (currentImage st) (Partial.currentImage u);
     lastFetch := default (lastFetch st) (Partial.lastFetch u);
     nextFetch := default (nextFetch st) (Partial.nextFetch u);
     refreshRate := default (refreshRate st) (Partial.refreshRate u);
     retryCount := default (retryCount st) (Partial.retryCount u);
     retryAfter := default (retryAfter st) (Partial.retryAfter u) |}.

(** The first-setup flag of a device id, as [hasCompletedFirstSetup] reads
    it in world [w]. *)
Definition first_setup_done (w : World) (deviceId : string) : bool :=
  match (hasCompletedFirstSetup deviceId w).1 with
  | Return b => b
  | Raise _ => false
  end.

(** The latest clock reading taken up to world [w']. *)
Definition last_reading (env : Env) (w' : World) : Z :=
  Z.of_N (clock env (pred (ticks w'))).

(** The call of [m] in [w] sent at least one request. *)
Definition attempted {A} (m : M A) (w : World) : Prop :=
  requests (m w).2 <> requests w.

(** ** Status codes *)

Definition unauthorized {A} (r : Response A) : Prop :=
  status r = 401 \/ status r = 403.

(** ** Backoff (C1) *)

(** The metadata request of the call met a failure: [fetch] rejected, or the
    response was neither unauthorized nor a readable 2xx (a 429, another
    non-2xx status, or a body that [json()] rejects). *)
Definition api_failed (env : Env) : Prop :=
  match api_reply env with
  | None => True
  | Some r => ~ unauthorized r /\ (ok r = false \/ body r = None)
  end.

(** The image download met a failure. *)
Definition image_failed (env : Env) : Prop :=
  match image_reply env with
  | None => True
  | Some r => ok r = false \/ body r = None
  end.

(** A failed fetch attempt: the call went from [w] to [w'], sent its
    metadata request, and that request failed, or it went on to send the
    image request and that one failed. *)
Definition failed_attempt (env : Env) (w w' : World) : Prop :=
  requests w' <> requests w /\
  (api_failed env \/
   (length (requests w') = 2 + length (requests w))%nat /\ image_failed env).

(** What C1 asks of one polling operation [op] run in world [w]. *)
Definition backoff_contract (env : Env) (op : M (option string)) (w : World)
  : Prop :=
  post op w (fun _ w' =>
    let n := retryCount (stored w) in
    let n' := retryCount (stored w') in
    (failed_attempt env w w' ->
     n' = S n /\
     exists t, retryAfter (stored w') = Some t /\
               t - last_reading env w' = Z.min (1000 * 2 ^ Z.of_nat n') 300000) /\
    ((n' < n)%nat ->
     n' = 0%nat /\ retryAfter (stored w') = None /\
     exists r, api_reply env = Some r /\ (unauthorized r \/ ok r = true))).

(** ** Scenarios

    Concrete stores and surroundings on which the statements are
    exercised. *)

Definition kitchen : Device :=
  {| id := "kitchen"; name := "Kitchen"; api_key := "key-1";
     friendly_id := None |}.

Definition cached_image : CurrentImage :=
  {| url := "data:image/png;base64,AAAA"; originalUrl := "https://x/a.png";
     filename := "a.png"; timestamp := 1000 |}.

(** A store with [kitchen] selected, an image cached, and the given retry
    state and first-setup map. *)
Definition kitchen_store (retryCount : nat) (retryAfter : option Z)
  (setup : option (gmap string bool)) : Storage :=
  {| trmnl_environment := Some production;
     trmnl_devices := Some (Array [kitchen]);
     trmnl_selectedDevice := Some (Some kitchen);
     trmnl_currentImage := Some (Some cached_image);
     trmnl_lastFetch := Some (Some 1000);
     trmnl_nextFetch := Some (Some 61000);
     trmnl_refreshRate := Some 60;
     trmnl_retryCount := Some retryCount;
     trmnl_retryAfter := Some retryAfter;
     trmnl_firstSetupComplete := setup |}.

Definition world_of (s : Storage) : World :=
  {| localStorage := s; ticks := 0; requests := [] |}.

(** A clock that starts at 5000 ms and advances 10 ms per reading. *)
Definition steady_clock (k : nat) : N := (5000 + 10 * N.of_nat k)%N.

(** Surroundings in which the screen endpoints answer with a bare status. *)
Definition answering (code : Z) : Env :=
  {| clock := steady_clock;
     api_reply := Some {| status := code; body := None |};
     image_reply := None;
     devices_reply := Some {| status := code; body := None |} |}.

(** Surroundings in which the screen endpoints answer 200 with the given
    image URL and a refresh rate of 60 s, and the image host is down. *)
Definition serving (imageUrl : string) : Env :=
  {| clock := steady_clock;
     api_reply :=
       Some {| status := 200;
               body := Some {| image_url := imageUrl; data_filename := None;
                               refresh_rate := Some 60 |} |};
     image_reply := None;
     devices_reply := None |}.

(** ** Rate limiting (C3) *)

(** What C3 asks of one authenticated call [op]: on a 429 the retry count
    is incremented, [retryAfter] is the clock reading plus the backoff of
    the new count, and the cached image, when there is one, is returned. *)
Definition rate_limit_claim (env : Env) (op : M (option string)) (w : World)
  : Prop :=
  forall r, api_reply env = Some r -> status r = 429 -> attempted op w ->
  post op w (fun o w' =>
    let n' := S (retryCount (stored w)) in
    retryCount (stored w') = n' /\
    retryAfter (stored w')
      = Some (last_reading env w' + Z.min (1000 * 2 ^ Z.of_nat n') 300000) /\
    forall u, cached_url (currentImage (stored w)) = Some u ->
              o = Return (Some u)).

(** What [fetchNextScreen] does on a 429: the same retry bookkeeping, and
    [null] whatever is cached. *)
Definition rate_limit_null (env : Env) (op : M (option string)) (w : World)
  : Prop :=
  forall r, api_reply env = Some r -> status r = 429 -> attempted op w ->
  post op w (fun o w' =>
    let n' := S (retryCount (stored w)) in
    retryCount (stored w') = n' /\
    retryAfter (stored w')
      = Some (last_reading env w' + Z.min (1000 * 2 ^ Z.of_nat n') 300000) /\
    o = Return None).

(** ** Unauthorized responses (C4) *)

(** What C4 asks of one authenticated call [op], whose failure value is
    [failure]: on a 401 or 403 it returns that value without raising, and
    the retry counters are cleared. *)
Definition unauthorized_claim {A} (env : Env) (op : M A) (failure : A)
  (w : World) : Prop :=
  forall r, api_reply env = Some r -> unauthorized r -> attempted op w ->
  post op w (fun o w' =>
    o = Return failure /\
    retryCount (stored w') = 0%nat /\ retryAfter (stored w') = None).

(** What [triggerSpecialFunction] does on a 401 or 403: it returns [false]
    without raising and writes nothing. *)
Definition unauthorized_untouched {A} (env : Env) (op : M A) (failure : A)
  (w : World) : Prop :=
  forall r, api_reply env = Some r -> unauthorized r -> attempted op w ->
  post op w (fun o w' =>
    o = Return failure /\ localStorage w' = localStorage w).

(** ** The backoff window (C5) *)

(** What C5 asks of one polling read [op]: while the window is open the
    call sends nothing, writes nothing, and returns the cached image URL,
    or [null] when none is cached. *)
Definition short_circuit_claim (env : Env) (op : M (option string))
  (w : World) : Prop :=
  forall t, retryAfter (stored w) = Some t -> now_at env w < t ->
  post op w (fun o w' =>
    o = Return (cached_url (currentImage (stored w))) /\
    requests w' = requests w /\ localStorage w' = localStorage w).

(** What [fetchNextScreen] does while the window is open: nothing is sent
    or written, and the result is [null] whatever is cached. *)
Definition short_circuit_null (env : Env) (op : M (option string))
  (w : World) : Prop :=
  forall t, retryAfter (stored w) = Some t -> now_at env w < t ->
  post op w (fun o w' =>
    o = Return None /\
    requests w' = requests w /\ localStorage w' = localStorage w).

(** ** The unchanged-image path (C2) *)

(** The request that [fetchImage] sends for the metadata: to one of the two
    screen endpoints of the configured host, carrying the access token. *)
Definition metadata_request (st : TrmnlState) (req : Request) : Prop :=
  (req_url req = getBaseUrl (environment st) ++ "/api/display" \/
   req_url req = getApiUrl (environment st)) /\
  exists apiKey,
    req_headers req = [("access-token", apiKey); ("Cache-Control", "no-cache")].

(** The outcome of the unchanged-image path: the cached URL is returned,
    the metadata request is the only request sent, the store changes in
    its [lastFetch], [nextFetch], [refreshRate], [retryCount] and
    [retryAfter] slots and nowhere else. *)
Definition timestamps_only (env : Env) (data : ScreenData)
  (img : CurrentImage) (w : World) (o : Outcome (option string))
  (w' : World) : Prop :=
  let rate := or_number (refresh_rate data) DEFAULT_REFRESH_RATE in
  let now := last_reading env w' in
  o = Return (Some (url img)) /\
  (exists req, requests w' = req :: requests w /\
               metadata_request (stored w) req) /\
  localStorage w'
  = {| trmnl_environment := trmnl_environment (localStorage w);
       trmnl_devices := trmnl_devices (localStorage w);
       trmnl_selectedDevice := trmnl_selectedDevice (localStorage w);
       trmnl_currentImage := trmnl_currentImage (localStorage w);
       trmnl_lastFetch := Some (Some now);
       trmnl_nextFetch := Some (Some (now + rate * 1000));
       trmnl_refreshRate := Some rate;
       trmnl_retryCount := Some 0%nat;
       trmnl_retryAfter := Some None;
       trmnl_firstSetupComplete :=
         trmnl_firstSetupComplete (localStorage w) |}.

(** ** The refresh schedule (C7) *)

(** [nextFetch], when set, is [lastFetch + refreshRate * 1000]. *)
Definition schedule_ok (st : TrmnlState) : Prop :=
  forall nf, nextFetch st = Some nf ->
  exists lf, lastFetch st = Some lf /\ nf = lf + refreshRate st * 1000.

(** How a run from [w] to [w'] treats the three schedule slots: it leaves
    all three alone, or writes all three with
    [nextFetch = lastFetch + refreshRate * 1000], or removes all three. *)
Definition written_together (w w' : World) : Prop :=
  let s := localStorage w in
  let s' := localStorage w' in
  (trmnl_lastFetch s' = trmnl_lastFetch s /\
   trmnl_nextFetch s' = trmnl_nextFetch s /\
   trmnl_refreshRate s' = trmnl_refreshRate s) \/
  (exists lf rate,
     trmnl_lastFetch s' = Some (Some lf) /\
     trmnl_refreshRate s' = Some rate /\
     trmnl_nextFetch s' = Some (Some (lf + rate * 1000))) \/
  (trmnl_lastFetch s' = None /\ trmnl_nextFetch s' = None /\
   trmnl_refreshRate s' = None).

(** ** First-setup routing (C6) *)

(** [selectedDevice?.id || "unknown"]: the key under which [fetchImage]
    looks up and records the first setup of the selected device. *)
Definition device_key (st : TrmnlState) : string :=
  or_string (id <$> selectedDevice st) "unknown".

(** [req] is the first request sent during the run from [w] to [w']. *)
Definition first_request (w w' : World) (req : Request) : Prop :=
  exists later, requests w' = (later ++ req :: requests w)%list.





(** Surroundings in which the screen endpoints answer 200 with the given
    image URL and the image host delivers the given data URL. *)
Definition delivering (imageUrl dataUrl : string) : Env :=
  {| clock := steady_clock;
     api_reply :=
       Some {| status := 200;
               body := Some {| image_url := imageUrl; data_filename := None;
                               refresh_rate := Some 60 |} |};
     image_reply := Some {| status := 200; body := Some dataUrl |};
     devices_reply := None |}.

(** ** No exception crosses the boundary (C8) *)

Definition returns_normally {A} (o : Outcome A) : Prop :=
  exists v, o = Return v.

(** Surroundings in which [/devices.json] answers 200 with the given JSON
    value, and nothing else answers. *)
Definition listing (devices : DeviceList) : Env :=
  {| clock := steady_clock;
     api_reply := None;
     image_reply := None;
     devices_reply := Some {| status := 200; body := Some devices |} |}.

(** Surroundings in which every request fails at the network level. *)
Definition offline : Env :=
  {| clock := steady_clock; api_reply := None; image_reply := None;
     devices_reply := None |}.

(** ** The countdown (C9) *)

(** The countdown format in the words of the specification: the remaining
    milliseconds split into hours, minutes and seconds, each written with
    at least two decimal digits; the hours are shown when at least one
    hour remains. *)
Definition digit_char (d : Z) : ascii := ascii_of_nat (48 + Z.to_nat d).

Definition two_digits (n : Z) : string :=
  String (digit_char (n / 10)) (String (digit_char (n mod 10)) EmptyString).

Definition zero_padded (n : Z) : string :=
  if n <? 100 then two_digits n else toString n.

Definition countdown (remaining : Z) : string :=
  let h := remaining / 3600000 in
  let m := (remaining / 60000) mod 60 in
  let s := (remaining / 1000) mod 60 in
  if 3600000 <=? remaining
  then zero_padded h ++ ":" ++ two_digits m ++ ":" ++ two_digits s
  else two_digits m ++ ":" ++ two_digits s.

(** What C9 asks: the placeholder when [nextFetch] is absent, and the
    countdown of [nextFetch - now], floored at zero, otherwise. *)
Definition countdown_claim (env : Env) (nextFetch : option Z) (w : World)
  : Prop :=
  post (formatTimeRemaining env nextFetch) w (fun o _ =>
    o = Return (match nextFetch with
                | None => "Unknown"
                | Some t => countdown (Z.max 0 (t - now_at env w))
                end)).

(** ** When a call reaches the network *)

(** The test [retryAfter && Date.now() < retryAfter] as it comes out in
    world [w]. *)
Definition window_open (env : Env) (w : World) : bool :=
  match retryAfter (stored w) with
  | Some t => truthy_number t && (now_at env w <? t)
  | None => false
  end.

(** The API key the operations resolve from the selected device. *)
Definition api_key_of (w : World) : option string :=
  resolve_api_key (selectedDevice (stored w)).

(** The call of [m] in [w] sent no request. *)
Definition silent {A} (m : M A) (w : World) : Prop :=
  requests (m w).2 = requests w.
(** ** The download path *)

(** The metadata response is a 2xx whose body reads as [data]; the image
    response is a 2xx whose body converts to the data URL [dataUrl]. *)
Definition metadata_ok (env : Env) (data : ScreenData) : Prop :=
  exists r, api_reply env = Some r /\ ok r = true /\ body r = Some data.

Definition image_ok (env : Env) (dataUrl : string) : Prop :=
  exists r, image_reply env = Some r /\ ok r = true /\ body r = Some dataUrl.

(** [fetch(imageUrl)]: the image request carries no header and no
    credentials. *)
Definition image_request (imageUrl : string) : Request :=
  {| req_url := imageUrl; req_headers := []; req_credentials := false |}.

(** The call sent the image request after its metadata request. *)
Definition image_requested (w w' : World) : Prop :=
  length (requests w') = (2 + length (requests w))%nat.

(** How a polling call treats the configuration and the cached image: the
    environment, the device list and the selection stay as they were; the
    cached image stays as it was unless the call downloaded an image, and
    then the image stored is the one returned. *)
Definition cache_kept_or_replaced (env : Env) (w : World)
  (o : Outcome (option string)) (w' : World) : Prop :=
  trmnl_environment (localStorage w') = trmnl_environment (localStorage w) /\
  trmnl_devices (localStorage w') = trmnl_devices (localStorage w) /\
  trmnl_selectedDevice (localStorage w')
    = trmnl_selectedDevice (localStorage w) /\
  (trmnl_currentImage (localStorage w') = trmnl_currentImage (localStorage w) \/
   exists data dataUrl img,
     metadata_ok env data /\ image_ok env dataUrl /\
     o = Return (Some dataUrl) /\
     trmnl_currentImage (localStorage w') = Some (Some img) /\
     url img = dataUrl /\ originalUrl img = image_url data).
(** ** Requests *)

(** The request of [fetchNextScreen]. *)
Definition display_request (st : TrmnlState) (apiKey : string) : Request :=
  {| req_url := getBaseUrl (environment st) ++ "/api/display";
     req_headers := [("Access-Token", apiKey); ("Cache-Control", "no-cache")];
     req_credentials := false |}.

(** The request of [fetchDevices]: the session cookie goes with it, and no
    header. *)
Definition devices_request (environment : Environment) : Request :=
  {| req_url := getDevicesUrl environment; req_headers := [];
     req_credentials := true |}.

(** ** The device list *)

(** The request for the device list met a failure: [fetch] rejected, or
    the response was no 2xx (a 401 or 403 among them), or its body did not
    parse. *)
Definition devices_failed (env : Env) : Prop :=
  match devices_reply env with
  | None => True
  | Some r => ok r = false \/ body r = None
  end.

(** The [try] block of [fetchDevices] runs to its end: the response is a
    2xx whose body parses, and the body is not [null] where its [.length]
    is read, which is when no device is selected. *)
Definition devices_listed (env : Env) (w : World) : Prop :=
  exists r v,
    devices_reply env = Some r /\ ok r = true /\ body r = Some v /\
    (v <> Null \/ selectedDevice (stored w) <> None).
(** ** Changing the device and the environment *)

(** The metadata request of [fetchImage]: to [/api/current_screen] of the
    host once the first setup of the device is complete, to [/api/display]
    before. *)
Definition image_metadata_request (environment : Environment)
  (completed : bool) (apiKey : string) : Request :=
  {| req_url :=
       if completed then getApiUrl environment
       else getBaseUrl environment ++ "/api/display";
     req_headers := [("access-token", apiKey); ("Cache-Control", "no-cache")];
     req_credentials := false |}.

(** The state record of a store that holds nothing. *)
Definition initial_state : TrmnlState :=
  {| environment := production; devices := Array [];
     selectedDevice := None; currentImage := None;
     lastFetch := None; nextFetch := None;
     refreshRate := DEFAULT_REFRESH_RATE;
     retryCount := 0; retryAfter := None |}.

(** [device.id || "unknown"]: the key under which [fetchImage] files the
    first setup of [device] once it is selected. *)
Definition setup_key (device : Device) : string :=
  or_string (Some (id device)) "unknown".

(** The configuration slots of the store: environment, device list and
    selection. *)
Definition same_configuration (w w' : World) : Prop :=
  trmnl_environment (localStorage w') = trmnl_environment (localStorage w) /\
  trmnl_devices (localStorage w') = trmnl_devices (localStorage w) /\
  trmnl_selectedDevice (localStorage w')
    = trmnl_selectedDevice (localStorage w).
(** ** Composing updates *)

(** [{...earlier, ...later}] on the keys that are defined: a key of
    [later] wins, a key that [later] leaves [undefined] comes from
    [earlier]. *)
Definition later_wins {T} (earlier later : option T) : option T :=
  match later with
  | Some v => Some v
  | None => earlier
  end.

Definition overlay (earlier later : Partial.t) : Partial.t :=
  {| Partial.environment :=
       later_wins (Partial.environment earlier) (Partial.environment later);
     Partial.devices :=
       later_wins (Partial.devices earlier) (Partial.devices later);
     Partial.selectedDevice :=
       later_wins (Partial.selectedDevice earlier)
         (Partial.selectedDevice later);
     Partial.currentImage :=
       later_wins (Partial.currentImage earlier) (Partial.currentImage later);
     Partial.lastFetch :=
       later_wins (Partial.lastFetch earlier) (Partial.lastFetch later);
     Partial.nextFetch :=
       later_wins (Partial.nextFetch earlier) (Partial.nextFetch later);
     Partial.refreshRate :=
       later_wins (Partial.refreshRate earlier) (Partial.refreshRate later);
     Partial.retryCount :=
       later_wins (Partial.retryCount earlier) (Partial.retryCount later);
     Partial.retryAfter :=
       later_wins (Partial.retryAfter earlier) (Partial.retryAfter later) |}.
(** ** Sessions of forced refreshes *)

(** A session of forced refreshes, one in each of the given
    surroundings. *)
Definition forced_refreshes (envs : list Env) : list (Env * Operation) :=
  map (fun env => (env, FetchImage true)) envs.
(** ** What goes over the network *)

(** A request to one of the two screen endpoints of the host of [e]: it
    names the API key in its access-token header (header names are
    case-insensitive) and carries no credentials. *)
Definition keyed_request (e : Environment) (apiKey : string) (req : Request)
  : Prop :=
  (req_url req = getBaseUrl e ++ "/api/display" \/
   req_url req = getApiUrl e) /\
  (exists name rest,
     (name = "access-token" \/ name = "Access-Token") /\
     req_headers req = (name, apiKey) :: rest) /\
  req_credentials req = false.

(** The requests of one authenticated call, latest first: none; or the
    keyed metadata request; or that request followed by the anonymous
    request for the image that a readable 2xx metadata response named. *)
Inductive traffic (env : Env) (e : Environment) (apiKey : option string)
  : list Request -> Prop :=
  | nothing_sent : traffic env e apiKey []
  | metadata_sent key meta :
      apiKey = Some key -> keyed_request e key meta ->
      traffic env e apiKey [meta]
  | image_sent key meta data :
      apiKey = Some key -> keyed_request e key meta ->
      metadata_ok env data ->
      traffic env e apiKey [image_request (image_url data); meta].

(** The requests that operation [op], started in [w], may send. *)
Definition traffic_of (env : Env) (op : Operation) (w : World)
  (new : list Request) : Prop :=
  match op with
  | FetchDevices e => new = [devices_request e]
  | SelectDevice _ | SetEnvironment _ | ClearState => new = []
  | SaveManualApiKey apiKey =>
      traffic env (environment (stored w))
        (if truthy_string apiKey then Some apiKey else None) new
  | TriggerSpecialFunction =>
      traffic env (environment (stored w)) (api_key_of w) new /\
      (length new <= 1)%nat
  | FetchNextScreen | FetchImage _ =>
      traffic env (environment (stored w)) (api_key_of w) new
  end.
(** ** The manual API key *)

(** The device entry that [saveManualApiKey] makes up for a key typed in
    by hand. *)
Definition manual_device (apiKey : string) : Device :=
  {| id := "manual"; name := "Manual Device"; api_key := apiKey;
     friendly_id := None |}.
(** ** The retry state *)

(** The two retry fields agree: no failure is counted and no backoff is
    pending, or at least one failure is counted and the time up to which
    the backoff lasts is set, to a time that tests as true. *)
Definition retry_consistent (st : TrmnlState) : Prop :=
  (retryCount st = 0%nat /\ retryAfter st = None) \/
  ((0 < retryCount st)%nat /\ exists t, retryAfter st = Some t /\ 0 < t).

(** How a run from [w] to [w'] treats the two retry slots: it leaves both
    alone, or resets both, or writes a positive count together with a
    positive time, or removes both. *)
Definition retry_written_together (w w' : World) : Prop :=
  let s := localStorage w in
  let s' := localStorage w' in
  (trmnl_retryCount s' = trmnl_retryCount s /\
   trmnl_retryAfter s' = trmnl_retryAfter s) \/
  (trmnl_retryCount s' = Some 0%nat /\ trmnl_retryAfter s' = Some None) \/
  (exists n t,
     trmnl_retryCount s' = Some (S n) /\
     trmnl_retryAfter s' = Some (Some t) /\ 0 < t) \/
  (trmnl_retryCount s' = None /\ trmnl_retryAfter s' = None).
(** ** Honouring the backoff *)

(** The unforced polling calls are held back until [until]: one that is
    made in [w'] and sends a request has read a clock that is not before
    [until]. *)
Definition held_back (env : Env) (w' : World) (until : Z) : Prop :=
  (attempted (fetchImage env false) w' -> until <= now_at env w') /\
  (attempted (fetchNextScreen env) w' -> until <= now_at env w').

(** * Properties *)

(** ** Running the store operations *)

Lemma with_storage_id w : with_storage (localStorage w) w = w.
Proof. by destruct w. Qed.

Lemma getStorageItem_run {T} (key : Key T) (d : T) w :
  getStorageItem key d w = (Return (default d (read key (localStorage w))), w).
Proof. unfold getStorageItem. by destruct (read key (localStorage w)). Qed.

Lemma getState_run w : getState w = (Return (state_of (localStorage w)), w).
Proof. reflexivity. Qed.

Lemma set_if_defined_run {T} (key : Key T) (v : option T) w :
  set_if_defined key v w
  = (Return tt, with_storage (store key v (localStorage w)) w).
Proof. destruct v; simpl; [reflexivity|]. by rewrite with_storage_id. Qed.

Lemma bind_run {A B} (m : M A) (k : A -> M B) w a w' :
  m w = (Return a, w') -> bind m k w = k a w'.
Proof. unfold bind. by intros ->. Qed.

Lemma updateState_run u w :
  updateState u w
  = (Return (state_of (apply_updates u (localStorage w))),
     with_storage (apply_updates u (localStorage w)) w).
Proof.
  unfold updateState.
  repeat (erewrite bind_run; [|apply set_if_defined_run]; simpl).
  reflexivity.
Qed.

Lemma store_None {T} (key : Key T) s : store key None s = s.
Proof. reflexivity. Qed.

(** A guarded write leaves alone whatever the key's writer leaves alone. *)
Lemma store_frame {T V} (key : Key T) (p : Storage -> V) v s :
  (forall x s0, p (write key x s0) = p s0) -> p (store key v s) = p s.
Proof. intros H. destruct v; simpl; [apply H | reflexivity]. Qed.

(** C10.  [updateState] writes exactly the keys that are defined in its
    argument: every slot of the store whose key is [undefined] in the update
    keeps its prior content (and so does the corresponding field of the
    state record), the first-setup map, the clock and the network are not
    touched, and the record returned is the one [getState] yields on the
    store after the writes. *)
Theorem updateState_frame (updates : Partial.t) (w : World) :
  exists st0 st w',
    getState w = (Return st0, w) /\
    updateState updates w = (Return st, w') /\
    getState w' = (Return st, w') /\
    ticks w' = ticks w /\ requests w' = requests w /\
    trmnl_firstSetupComplete (localStorage w')
      = trmnl_firstSetupComplete (localStorage w) /\
    (retains (Partial.environment updates)
       (trmnl_environment (localStorage w))
       (trmnl_environment (localStorage w')) /\
     retains (Partial.devices updates)
       (trmnl_devices (localStorage w)) (trmnl_devices (localStorage w')) /\
     retains (Partial.selectedDevice updates)
       (trmnl_selectedDevice (localStorage w))
       (trmnl_selectedDevice (localStorage w')) /\
     retains (Partial.currentImage updates)
       (trmnl_currentImage (localStorage w))
       (trmnl_currentImage (localStorage w')) /\
     retains (Partial.lastFetch updates)
       (trmnl_lastFetch (localStorage w))
       (trmnl_lastFetch (localStorage w')) /\
     retains (Partial.nextFetch updates)
       (trmnl_nextFetch (localStorage w))
       (trmnl_nextFetch (localStorage w')) /\
     retains (Partial.refreshRate updates)
       (trmnl_refreshRate (localStorage w))
       (trmnl_refreshRate (localStorage w')) /\
     retains (Partial.retryCount updates)
       (trmnl_retryCount (localStorage w))
       (trmnl_retryCount (localStorage w')) /\
     retains (Partial.retryAfter updates)
       (trmnl_retryAfter (localStorage w))
       (trmnl_retryAfter (localStorage w'))) /\
    (retains (Partial.environment updates) (environment st0) (environment st) /\
     retains (Partial.devices updates) (devices st0) (devices st) /\
     retains (Partial.selectedDevice updates)
       (selectedDevice st0) (selectedDevice st) /\
     retains (Partial.currentImage updates)
       (currentImage st0) (currentImage st) /\
     retains (Partial.lastFetch updates) (lastFetch st0) (lastFetch st) /\
     retains (Partial.nextFetch updates) (nextFetch st0) (nextFetch st) /\
     retains (Partial.refreshRate updates)
       (refreshRate st0) (refreshRate st) /\
     retains (Partial.retryCount updates) (retryCount st0) (retryCount st) /\
     retains (Partial.retryAfter updates) (retryAfter st0) (retryAfter st)).
Proof.
  eexists _, _, _.
  split; [apply getState_run|].
  split; [apply updateState_run|].
  split; [apply getState_run|].
  destruct updates as [e d sd ci lf nf rr rc ra].
  unfold retains, apply_updates, state_of; cbn [Partial.environment
    Partial.devices Partial.selectedDevice Partial.currentImage
    Partial.lastFetch Partial.nextFetch Partial.refreshRate
    Partial.retryCount Partial.retryAfter with_storage localStorage ticks
    requests environment devices selectedDevice currentImage lastFetch
    nextFetch refreshRate retryCount retryAfter].
  repeat split; try (intros ->; cbn [store]);
    rewrite ?store_frame by (intros; reflexivity); reflexivity.
Qed.

Lemma updateState_frame_witness :
  let w := world_of (kitchen_store 1 (Some 9000) None) in
  exists st0 st w',
    getState w = (Return st0, w) /\
    updateState (retry_update 0 None) w = (Return st, w') /\
    currentImage st = currentImage st0 /\
    devices st = devices st0 /\
    selectedDevice st = selectedDevice st0 /\
    trmnl_firstSetupComplete (localStorage w')
      = trmnl_firstSetupComplete (localStorage w).
Proof.
  intros w.
  destruct (updateState_frame (retry_update 0 None) w)
    as (st0 & st & w' & Hget & Hupd & _ & _ & _ & Hsetup & _ & Hst).
  destruct Hst as (_ & Hdev & Hsel & Himg & _).
  exists st0, st, w'.
  split; [exact Hget|]. split; [exact Hupd|].
  split; [exact (Himg eq_refl)|].
  split; [exact (Hdev eq_refl)|].
  split; [exact (Hsel eq_refl)|].
  exact Hsetup.
Defined.

(** ** Postconditions of a run

    The rules follow the structure of a computation, one per construct of
    the monad and per primitive effect. *)

Section PostRules.
Context {A B : Type}.
Implicit Types (w : World) (Q : Outcome B -> World -> Prop).

Lemma post_ret (b : B) w Q : Q (Return b) w -> post (ret b) w Q.
Proof. done. Qed.

Lemma post_throw (e : Error) w Q : Q (Raise e) w -> post (throw e) w Q.
Proof. done. Qed.

Lemma post_bind (m : M A) (k : A -> M B) w Q :
  post m w (fun o w1 =>
              match o with
              | Return a => post (k a) w1 Q
              | Raise e => Q (Raise e) w1
              end) ->
  post (bind m k) w Q.
Proof. unfold post, bind. by destruct (m w) as [[a|e] w1]. Qed.

Lemma post_try_catch (m : M B) (handler : Error -> M B) w Q :
  post m w (fun o w1 =>
              match o with
              | Return b => Q (Return b) w1
              | Raise e => post (handler e) w1 Q
              end) ->
  post (try_catch m handler) w Q.
Proof. unfold post, try_catch. by destruct (m w) as [[a|e] w1]. Qed.

Lemma post_getStorageItem (key : Key B) (d : B) w Q :
  Q (Return (default d (read key (localStorage w)))) w ->
  post (getStorageItem key d) w Q.
Proof. unfold post. by rewrite getStorageItem_run. Qed.
End PostRules.

Lemma post_fetch {A} (reply : option (Response A)) (req : Request) w
  (Q : Outcome (Response A) -> World -> Prop) :
  match reply with
  | Some r => Q (Return r) (sent req w)
  | None => Q (Raise NetworkFailure) (sent req w)
  end ->
  post (fetch reply req) w Q.
Proof. unfold post, fetch. by destruct reply. Qed.

Lemma post_read_body {A} (r : Response A) w
  (Q : Outcome A -> World -> Prop) :
  match body r with
  | Some b => Q (Return b) w
  | None => Q (Raise BodyRejected) w
  end ->
  post (read_body r) w Q.
Proof. unfold post, read_body. by destruct (body r). Qed.

Lemma post_Date_now env w (Q : Outcome Z -> World -> Prop) :
  Q (Return (now_at env w)) (tick w) -> post (Date_now env) w Q.
Proof. done. Qed.

Lemma post_getState w (Q : Outcome TrmnlState -> World -> Prop) :
  Q (Return (stored w)) w -> post getState w Q.
Proof. done. Qed.

Lemma post_updateState u w (Q : Outcome TrmnlState -> World -> Prop) :
  Q (Return (state_of (apply_updates u (localStorage w))))
    (with_storage (apply_updates u (localStorage w)) w) ->
  post (updateState u) w Q.
Proof. unfold post. by rewrite updateState_run. Qed.

Lemma post_setStorageItem {T} (key : Key T) (v : T) w
  (Q : Outcome unit -> World -> Prop) :
  Q (Return tt) (with_storage (write key (Some v) (localStorage w)) w) ->
  post (setStorageItem key v) w Q.
Proof. done. Qed.

(** One step of symbolic execution: apply the rule of the construct at the
    head of the computation, or split on the scrutinee the run is stuck on. *)
Ltac post_step :=
  lazymatch goal with
  | |- post (bind _ _) _ _ => apply post_bind
  | |- post (try_catch _ _) _ _ => apply post_try_catch
  | |- post (ret _) _ _ => apply post_ret
  | |- post (throw _) _ _ => apply post_throw
  | |- post (fetch _ _) _ _ => apply post_fetch
  | |- post (read_body _) _ _ => apply post_read_body
  | |- post (Date_now _) _ _ => apply post_Date_now
  | |- post getState _ _ => apply post_getState
  | |- post (updateState _) _ _ => apply post_updateState
  | |- post (getStorageItem _ _) _ _ => apply post_getStorageItem
  | |- post (setStorageItem _ _) _ _ => apply post_setStorageItem
  | |- post (match ?x with _ => _ end) _ _ => destruct x eqn:?
  | |- match ?x with _ => _ end => destruct x eqn:?
  end.

Ltac run :=
  repeat (lazy beta iota zeta; post_step).

(** ** Reading a world after a run *)

Lemma state_of_apply_updates u s :
  state_of (apply_updates u s) = merge u (state_of s).
Proof.
  destruct u as [e d sd ci lf nf rr rc ra].
  unfold state_of, merge, apply_updates;
    cbn [Partial.environment Partial.devices Partial.selectedDevice
         Partial.currentImage Partial.lastFetch Partial.nextFetch
         Partial.refreshRate Partial.retryCount Partial.retryAfter
         environment devices selectedDevice currentImage lastFetch
         nextFetch refreshRate retryCount retryAfter].
  f_equal; rewrite ?store_frame by (intros; reflexivity);
    [destruct e | destruct d | destruct sd | destruct ci | destruct lf
    | destruct nf | destruct rr | destruct rc | destruct ra];
    cbn [store]; rewrite ?store_frame by (intros; reflexivity); reflexivity.
Qed.

Lemma firstSetup_apply_updates u s :
  trmnl_firstSetupComplete (apply_updates u s) = trmnl_firstSetupComplete s.
Proof.
  unfold apply_updates. by rewrite !store_frame by (intros; reflexivity).
Qed.

Lemma read_firstSetup s :
  read STORAGE_KEYS.firstSetupComplete s = trmnl_firstSetupComplete s.
Proof. reflexivity. Qed.

Lemma state_of_mark v s :
  state_of (write STORAGE_KEYS.firstSetupComplete v s) = state_of s.
Proof. reflexivity. Qed.

Lemma firstSetup_mark v s :
  trmnl_firstSetupComplete (write STORAGE_KEYS.firstSetupComplete v s) = v.
Proof. reflexivity. Qed.

Lemma first_setup_done_eq w d :
  first_setup_done w d
  = bool_decide
      (default ∅ (trmnl_firstSetupComplete (localStorage w)) !! d = Some true).
Proof. reflexivity. Qed.

Lemma post_attempted {A} (m : M A) w (Q : Outcome A -> World -> Prop) :
  post m w (fun o w' => requests w' <> requests w -> Q o w') ->
  attempted m w -> post m w Q.
Proof. unfold post, attempted. auto. Qed.

Lemma post_mono {A} (m : M A) w (Q Q' : Outcome A -> World -> Prop) :
  post m w Q -> (forall o w', Q o w' -> Q' o w') -> post m w Q'.
Proof. unfold post. auto. Qed.

(** Bring the worlds and states of a finished run to normal form. *)
Ltac world_simpl :=
  unfold stored, now_at, last_reading in *;
  cbn [localStorage ticks requests tick sent with_storage Nat.pred] in *;
  rewrite ?read_firstSetup, ?state_of_mark, ?firstSetup_mark,
    ?state_of_apply_updates, ?firstSetup_apply_updates in *;
  cbn [merge retry_update timestamps_update image_update default
       from_option Datatypes.id
       Partial.environment Partial.devices Partial.selectedDevice
       Partial.currentImage Partial.lastFetch Partial.nextFetch
       Partial.refreshRate Partial.retryCount Partial.retryAfter
       environment devices selectedDevice currentImage lastFetch
       nextFetch refreshRate retryCount retryAfter
       trmnl_firstSetupComplete] in *.

(** ** Status codes *)

Lemma unauthorized_test {A} (r : Response A) :
  (status r =? 401) || (status r =? 403) = true <-> unauthorized r.
Proof. unfold unauthorized. rewrite orb_true_iff, !Z.eqb_eq. tauto. Qed.

Lemma ok_not_unauthorized {A} (r : Response A) :
  ok r = true -> (status r =? 401) || (status r =? 403) = false.
Proof.
  unfold ok. rewrite andb_true_iff, !Z.leb_le. intros [? ?].
  apply orb_false_iff. split; apply Z.eqb_neq; lia.
Qed.

Lemma ok_not_rate_limited {A} (r : Response A) :
  ok r = true -> (status r =? 429) = false.
Proof.
  unfold ok. rewrite andb_true_iff, !Z.leb_le. intros [? ?].
  apply Z.eqb_neq; lia.
Qed.

Lemma not_unauthorized_test {A} (r : Response A) :
  (status r =? 401) || (status r =? 403) = false <-> ~ unauthorized r.
Proof. rewrite <- unauthorized_test. by destruct (_ || _). Qed.

(** Turn the boolean tests met along a path into propositions. *)
Ltac path_facts :=
  repeat match goal with
  | H : negb _ = false |- _ => apply negb_false_iff in H
  | H : negb _ = true |- _ => apply negb_true_iff in H
  | H : (_ =? 401) || (_ =? 403) = true |- _ => apply unauthorized_test in H
  | H : (_ =? 401) || (_ =? 403) = false |- _ =>
      apply not_unauthorized_test in H
  | H : (_ =? _) = true |- _ => apply Z.eqb_eq in H
  | H : (_ =? _) = false |- _ => apply Z.eqb_neq in H
  | H : ?x = _ |- context [match ?x with _ => _ end] => rewrite H
  | H : ?x = _, H' : context [match ?x with _ => _ end] |- _ =>
      rewrite H in H'
  end.

(** Close a path that the hypotheses rule out. *)
Ltac absurd_path :=
  exfalso; path_facts; unfold unauthorized in *;
  first [done | lia | congruence | intuition congruence | intuition lia].

(** ** Backoff (C1) *)




(** Every path of a polling operation meets the contract: the paths that
    send nothing leave the retry state alone, the unauthorized and the 2xx
    paths reset it, and all others, through the 429 branch or through the
    [catch], record the incremented count and the delay. *)
Ltac backoff_paths :=
  run; unfold failed_attempt, api_failed, image_failed; world_simpl;
  lazy zeta; cbn [length] in *; path_facts;
  (split; [intros [? ?]; try done | intros ?; try lia]);
  first
    [ split; [lia | eexists; split; [reflexivity | unfold backoffMs; lia]]
    | repeat split; eexists; split; [reflexivity | tauto]
    | exfalso;
      match goal with
      | H : _ \/ _ /\ _ |- _ => destruct H as [? | [? ?]]
      end; try lia;
      match goal with H : _ <> _ |- _ => clear H end;
      intuition congruence ].

Lemma fetchImage_backoff env forceRefresh w :
  backoff_contract env (fetchImage env forceRefresh) w.
Proof.
  unfold backoff_contract, fetchImage, in_backoff, hasCompletedFirstSetup,
    markFirstSetupComplete.
  backoff_paths.
Qed.

Lemma fetchNextScreen_backoff env w :
  backoff_contract env (fetchNextScreen env) w.
Proof.
  unfold backoff_contract, fetchNextScreen, in_backoff.
  backoff_paths.
Qed.



(** ** Rate limiting (C3) *)

(** C3, as the code has it.  A 429 answer to [fetchImage] increments
    [retryCount], sets [retryAfter] to the current time plus
    [min(1000 * 2^retryCount, 300000)] for the new count, and returns the
    cached image URL when one is cached.  A 429 answer to [fetchNextScreen]
    updates the retry state in the same way and returns [null]. *)
Theorem rate_limited_response (env : Env) (forceRefresh : bool) (w : World) :
  rate_limit_claim env (fetchImage env forceRefresh) w /\
  rate_limit_null env (fetchNextScreen env) w.
Proof.
  split; intros r Hr Hs; apply post_attempted.
  - unfold fetchImage, in_backoff, hasCompletedFirstSetup,
      markFirstSetupComplete.
    rewrite Hr.
    run; world_simpl; lazy zeta; intros Hreq; try done; try absurd_path.
    all: repeat split; try (f_equal; unfold backoffMs; lia);
      intros u ->; reflexivity.
  - unfold fetchNextScreen, in_backoff. rewrite Hr.
    run; world_simpl; lazy zeta; intros Hreq; try done; try absurd_path.
    all: repeat split; f_equal; unfold backoffMs; lia.
Qed.

Lemma rate_limited_response_witness :
  let w := world_of (kitchen_store 0 None None) in
  let image := fetchImage (answering 429) false w in
  let next := fetchNextScreen (answering 429) w in
  (retryCount (stored image.2) = 1%nat /\
   retryAfter (stored image.2) = Some 7000 /\
   image.1 = Return (Some "data:image/png;base64,AAAA")) /\
  (retryCount (stored next.2) = 1%nat /\
   retryAfter (stored next.2) = Some 7000 /\
   next.1 = Return None).
Proof.
  intros w image next.
  destruct (rate_limited_response (answering 429) false w) as [Hi Hn].
  split.
  - assert (Ha : attempted (fetchImage (answering 429) false) w)
      by (vm_compute; discriminate).
    destruct (Hi _ eq_refl eq_refl Ha) as (Hc & Hr & Hu).
    split; [exact Hc|]. split; [exact Hr|]. exact (Hu _ eq_refl).
  - assert (Ha : attempted (fetchNextScreen (answering 429)) w)
      by (vm_compute; discriminate).
    destruct (Hn _ eq_refl eq_refl Ha) as (Hc & Hr & Ho).
    split; [exact Hc|]. split; [exact Hr|]. exact Ho.
Defined.

(** On a 429 [fetchNextScreen] returns [null] although an image is cached:
    it does not meet C3 as stated. *)
Lemma fetchNextScreen_429_returns_null :
  ~ rate_limit_claim (answering 429) (fetchNextScreen (answering 429))
      (world_of (kitchen_store 0 None None)).
Proof.
  intros H.
  specialize (H _ eq_refl eq_refl).
  assert (Ha : attempted (fetchNextScreen (answering 429))
                 (world_of (kitchen_store 0 None None)))
    by (vm_compute; discriminate).
  destruct (H Ha) as (_ & _ & Hu).
  specialize (Hu _ eq_refl). vm_compute in Hu. discriminate.
Qed.

(** ** Unauthorized responses (C4) *)

(** C4, as the code has it.  A 401 or 403 answer makes [fetchImage] and
    [fetchNextScreen] reset [retryCount] to 0 and [retryAfter] to [null] and
    return [null]; it makes [triggerSpecialFunction] return [false] and
    leave the store, retry counters included, as it was.  None of the three
    raises. *)
Theorem unauthorized_response (env : Env) (forceRefresh : bool) (w : World) :
  unauthorized_claim env (fetchImage env forceRefresh) None w /\
  unauthorized_claim env (fetchNextScreen env) None w /\
  unauthorized_untouched env (triggerSpecialFunction env) false w.
Proof.
  split; [|split]; intros r Hr Hs; apply unauthorized_test in Hs;
    apply post_attempted.
  - unfold fetchImage, in_backoff, hasCompletedFirstSetup,
      markFirstSetupComplete.
    rewrite Hr.
    run; world_simpl; intros Hreq; try done; congruence.
  - unfold fetchNextScreen, in_backoff. rewrite Hr.
    run; world_simpl; intros Hreq; try done; congruence.
  - unfold triggerSpecialFunction. rewrite Hr.
    run; world_simpl; intros Hreq; try done; congruence.
Qed.

Lemma unauthorized_response_witness :
  let w := world_of (kitchen_store 3 (Some 4000) None) in
  let image := fetchImage (answering 401) true w in
  let next := fetchNextScreen (answering 403) w in
  let special := triggerSpecialFunction (answering 401) w in
  (image.1 = Return None /\
   retryCount (stored image.2) = 0%nat /\ retryAfter (stored image.2) = None)
  /\
  (next.1 = Return None /\
   retryCount (stored next.2) = 0%nat /\ retryAfter (stored next.2) = None)
  /\
  (special.1 = Return false /\ localStorage special.2 = localStorage w).
Proof.
  intros w image next special.
  split; [|split].
  - destruct (unauthorized_response (answering 401) true w) as (H & _ & _).
    apply (H _ eq_refl); [left; reflexivity | vm_compute; discriminate].
  - destruct (unauthorized_response (answering 403) true w) as (_ & H & _).
    apply (H _ eq_refl); [right; reflexivity | vm_compute; discriminate].
  - destruct (unauthorized_response (answering 401) true w) as (_ & _ & H).
    apply (H _ eq_refl); [left; reflexivity | vm_compute; discriminate].
Defined.

(** After a 401, [triggerSpecialFunction] leaves a stored [retryCount] of 3
    in place: it does not meet C4 as stated. *)
Lemma triggerSpecialFunction_keeps_retry_state :
  ~ unauthorized_claim (answering 401) (triggerSpecialFunction (answering 401))
      false (world_of (kitchen_store 3 (Some 4000) None)).
Proof.
  intros H.
  specialize (H _ eq_refl (or_introl eq_refl)).
  assert (Ha : attempted (triggerSpecialFunction (answering 401))
                 (world_of (kitchen_store 3 (Some 4000) None)))
    by (vm_compute; discriminate).
  destruct (H Ha) as (_ & Hc & _).
  vm_compute in Hc. discriminate.
Qed.

(** ** The backoff window (C5) *)

Lemma in_backoff_open env w t :
  retryAfter (stored w) = Some t -> now_at env w < t ->
  in_backoff env (retryAfter (stored w)) w = (Return true, tick w).
Proof.
  intros -> Hlt. unfold in_backoff, truthy_number.
  assert (0 <= now_at env w) by (unfold now_at; lia).
  destruct (Z.eqb_spec t 0) as [->|_]; [lia|].
  cbn [negb]. unfold bind, Date_now, ret. cbn [fst snd].
  fold (now_at env w). fold (tick w).
  by destruct (Z.ltb_spec (now_at env w) t); [|lia].
Qed.

(** C5, as the code has it.  When [retryAfter] is set and the current time
    is strictly before it, [fetchImage] without [forceRefresh] issues no
    request, leaves the store unchanged and returns the cached image URL
    ([null] if none is cached); [fetchNextScreen] likewise issues no request
    and leaves the store unchanged, and returns [null]. *)
Theorem backoff_window (env : Env) (w : World) :
  short_circuit_claim env (fetchImage env false) w /\
  short_circuit_null env (fetchNextScreen env) w.
Proof.
  split; intros t Ht Hlt.
  - unfold fetchImage. apply post_bind, post_getState, post_bind.
    unfold post. rewrite (in_backoff_open env w t Ht Hlt). cbn.
    done.
  - unfold fetchNextScreen. apply post_bind, post_getState, post_bind.
    unfold post. rewrite (in_backoff_open env w t Ht Hlt). cbn.
    done.
Qed.

Lemma backoff_window_witness :
  let w := world_of (kitchen_store 1 (Some 10000) None) in
  let image := fetchImage (serving "https://x/b.png") false w in
  let next := fetchNextScreen (serving "https://x/b.png") w in
  (image.1 = Return (Some "data:image/png;base64,AAAA") /\
   requests image.2 = [] /\ localStorage image.2 = localStorage w) /\
  (next.1 = Return None /\
   requests next.2 = [] /\ localStorage next.2 = localStorage w).
Proof.
  intros w image next.
  destruct (backoff_window (serving "https://x/b.png") w) as [Hi Hn].
  split.
  - apply (Hi 10000); [reflexivity | vm_compute; reflexivity].
  - apply (Hn 10000); [reflexivity | vm_compute; reflexivity].
Defined.

(** While the window is open [fetchNextScreen] returns [null] although an
    image is cached: it does not meet C5 as stated. *)
Lemma fetchNextScreen_window_returns_null :
  ~ short_circuit_claim (serving "https://x/b.png")
      (fetchNextScreen (serving "https://x/b.png"))
      (world_of (kitchen_store 1 (Some 10000) None)).
Proof.
  intros H.
  assert (Hlt : now_at (serving "https://x/b.png")
                  (world_of (kitchen_store 1 (Some 10000) None)) < 10000)
    by (vm_compute; reflexivity).
  destruct (H 10000 eq_refl Hlt) as (Ho & _).
  vm_compute in Ho. discriminate.
Qed.

(** ** The unchanged-image path (C2) *)

(** A log that grew differs from the log it grew from. *)
Ltac log_grows :=
  let E := fresh in
  intros E; apply (f_equal (@length Request)) in E; cbn [length] in E; lia.

(** A call of [fetchImage] that sends a request has resolved an API key. *)
Lemma fetchImage_attempted_key env forceRefresh w :
  attempted (fetchImage env forceRefresh) w ->
  exists apiKey, resolve_api_key (selectedDevice (stored w)) = Some apiKey.
Proof.
  apply (post_attempted _ w (fun _ _ => _)).
  unfold fetchImage, in_backoff, hasCompletedFirstSetup,
    markFirstSetupComplete.
  run; world_simpl; intros Hreq; try done; eauto.
Qed.

(** With no backoff pending and an API key at hand, [fetchImage] sends its
    metadata request. *)
Lemma fetchImage_attempts env forceRefresh w apiKey :
  retryAfter (stored w) = None ->
  resolve_api_key (selectedDevice (stored w)) = Some apiKey ->
  attempted (fetchImage env forceRefresh) w.
Proof.
  intros Hra Hkey.
  change (post (fetchImage env forceRefresh) w
            (fun _ w' => requests w' <> requests w)).
  unfold fetchImage, in_backoff, hasCompletedFirstSetup,
    markFirstSetupComplete.
  apply post_bind, post_getState. rewrite Hra, Hkey.
  run; world_simpl; log_grows.
Qed.

Lemma unchanged_image_same forceRefresh img imageUrl :
  forceRefresh = false -> originalUrl img = imageUrl ->
  unchanged_image forceRefresh (Some img) imageUrl = Some img.
Proof.
  intros -> <-. unfold unchanged_image. by rewrite String.eqb_refl.
Qed.

Lemma fetchImage_unchanged env w r data img :
  api_reply env = Some r -> ok r = true -> body r = Some data ->
  currentImage (stored w) = Some img ->
  originalUrl img = image_url data ->
  attempted (fetchImage env false) w ->
  post (fetchImage env false) w (timestamps_only env data img w).
Proof.
  intros Hr Hok Hbody Himg Hurl.
  apply post_attempted.
  unfold fetchImage, in_backoff, hasCompletedFirstSetup,
    markFirstSetupComplete.
  apply post_bind, post_getState.
  rewrite Hr, Himg.
  run; world_simpl; intros Hreq; try done.
  all: try (rewrite (ok_not_unauthorized r Hok) in *; discriminate).
  all: try (rewrite (ok_not_rate_limited r Hok) in *; discriminate).
  all: try (rewrite Hok in *; discriminate).
  all: try congruence.
  all: assert (s0 = data) as -> by congruence.
  all: rewrite (unchanged_image_same false img (image_url data)) in * by done.
  all: try discriminate.
  all: assert (c = img) as -> by congruence.
  all: unfold timestamps_only; world_simpl; lazy zeta.
  all: split; [reflexivity|].
  all: split; [eexists; split; [reflexivity|]; split; [|eauto];
               cbn [req_url]; destruct (negb (bool_decide _));
               [left | right]; reflexivity|].
  all: reflexivity.
Qed.

(** C2.  When [fetchImage(false)] gets a 2xx metadata response whose
    [image_url] equals the stored [currentImage.originalUrl], it performs no
    image download (the metadata request is the only request it sends), it
    writes [lastFetch], [nextFetch] and [refreshRate], resets [retryCount]
    to 0 and [retryAfter] to [null], leaves every other slot of the store
    as it was, and returns the cached [currentImage.url].  A second such
    call right after it, answered with the same [image_url], again sends
    the metadata request only and returns the identical URL, and the cached
    image is still the same. *)
Theorem unchanged_image_skips_download
  (env : Env) (w : World) (r : Response ScreenData) (data : ScreenData)
  (img : CurrentImage) :
  api_reply env = Some r -> ok r = true -> body r = Some data ->
  currentImage (stored w) = Some img ->
  originalUrl img = image_url data ->
  attempted (fetchImage env false) w ->
  post (fetchImage env false) w (fun o w' =>
    timestamps_only env data img w o w' /\
    forall env2 r2 data2,
      api_reply env2 = Some r2 -> ok r2 = true -> body r2 = Some data2 ->
      image_url data2 = image_url data ->
      post (fetchImage env2 false) w' (fun o2 w2 =>
        timestamps_only env2 data2 img w' o2 w2 /\
        currentImage (stored w2) = Some img)).
Proof.
  intros Hr Hok Hbody Himg Hurl Hatt.
  eapply post_mono; [by apply (fetchImage_unchanged env w r data img)|].
  intros o w' H. split; [exact H|].
  destruct H as (_ & _ & Hls).
  intros env2 r2 data2 Hr2 Hok2 Hbody2 Hurl2.
  assert (Himg' : currentImage (stored w') = Some img)
    by (unfold stored; rewrite Hls; exact Himg).
  destruct (fetchImage_attempted_key _ _ _ Hatt) as [apiKey Hkey].
  assert (Hatt' : attempted (fetchImage env2 false) w').
  { apply (fetchImage_attempts _ _ _ apiKey).
    - unfold stored. by rewrite Hls.
    - unfold stored. rewrite Hls. exact Hkey. }
  eapply post_mono;
    [apply (fetchImage_unchanged env2 w' r2 data2 img); try done; congruence|].
  intros o2 w2 H2. split; [exact H2|].
  destruct H2 as (_ & _ & Hls2).
  unfold stored. rewrite Hls2. exact Himg'.
Qed.

Lemma unchanged_image_skips_download_witness :
  let env := serving "https://x/a.png" in
  let w := world_of (kitchen_store 2 None None) in
  let first := fetchImage env false w in
  let second := fetchImage env false first.2 in
  first.1 = Return (Some "data:image/png;base64,AAAA") /\
  length (requests first.2) = 1%nat /\
  nextFetch (stored first.2) = Some (5000 + 60 * 1000) /\
  second.1 = Return (Some "data:image/png;base64,AAAA") /\
  length (requests second.2) = 2%nat /\
  currentImage (stored second.2) = Some cached_image.
Proof.
  intros env w first second.
  assert (Ha : attempted (fetchImage env false) w)
    by (vm_compute; discriminate).
  destruct (unchanged_image_skips_download env w _ _ cached_image
              eq_refl eq_refl eq_refl eq_refl eq_refl Ha)
    as ((Ho & _ & Hls) & Hnext).
  destruct (Hnext env _ _ eq_refl eq_refl eq_refl eq_refl)
    as ((Ho2 & (req & Hreq & _) & _) & Himg).
  split; [exact Ho|].
  split; [reflexivity|].
  split; [reflexivity|].
  split; [exact Ho2|].
  split; [reflexivity|].
  exact Himg.
Defined.

(** ** The refresh schedule (C7) *)

Lemma schedule_ok_written w w' :
  written_together w w' -> schedule_ok (stored w) -> schedule_ok (stored w').
Proof.
  unfold written_together, schedule_ok, stored, state_of; cbn.
  intros [(-> & -> & ->) | [(lf & rate & -> & -> & ->) | (-> & -> & ->)]];
    cbn; intros H nf Hnf; auto.
  - injection Hnf as <-. eauto.
  - discriminate.
Qed.

Lemma written_together_trans w1 w2 w3 :
  written_together w1 w2 -> written_together w2 w3 -> written_together w1 w3.
Proof.
  unfold written_together; cbn.
  intros H12 [(-> & -> & ->) | H23]; [exact H12 | right; exact H23].
Qed.

Ltac schedule_paths :=
  run; world_simpl;
  unfold apply_updates;
  cbn [Partial.environment Partial.devices Partial.selectedDevice
       Partial.currentImage Partial.lastFetch Partial.nextFetch
       Partial.refreshRate Partial.retryCount Partial.retryAfter];
  rewrite ?store_None; rewrite ?store_frame by (intros; reflexivity);
  first [ left; repeat split; reflexivity
        | right; left; eexists _, _; repeat split; reflexivity
        | right; right; repeat split; reflexivity ].

Lemma fetchImage_schedule env forceRefresh w :
  post (fetchImage env forceRefresh) w (fun _ w' => written_together w w').
Proof.
  unfold fetchImage, in_backoff, hasCompletedFirstSetup,
    markFirstSetupComplete, written_together.
  schedule_paths.
Qed.

Lemma perform_schedule env op w :
  post (perform env op) w (fun _ w' => written_together w w').
Proof.
  destruct op; cbn [perform].
  - unfold fetchDevices, length_of, written_together. schedule_paths.
  - unfold fetchNextScreen, in_backoff, written_together. schedule_paths.
  - unfold triggerSpecialFunction, written_together. schedule_paths.
  - apply post_bind. eapply post_mono; [apply fetchImage_schedule|].
    intros [v|e] w'; done.
  - unfold selectDevice, written_together. schedule_paths.
  - unfold setEnvironment, written_together. schedule_paths.
  - unfold saveManualApiKey.
    apply post_bind, post_updateState, post_try_catch, post_bind.
    eapply post_mono; [apply fetchImage_schedule|].
    intros [v|e] w' H; lazy beta iota; [apply post_ret|apply post_ret];
      (eapply written_together_trans; [|exact H]);
      left; repeat split; reflexivity.
  - unfold clearState, post, written_together; cbn. right; right; done.
Qed.

(** C7.  Every operation either leaves [lastFetch], [nextFetch] and
    [refreshRate] alone, or writes the three together, in one update, with
    [nextFetch = lastFetch + refreshRate * 1000] (a full reset removes the
    three together).  So whenever [nextFetch] is set it equals
    [lastFetch + refreshRate * 1000]: the relation holds of the initial
    empty store, every operation preserves it, and it holds after every
    session of operations. *)
Theorem nextFetch_schedule :
  (forall env op w,
     post (perform env op) w (fun _ w' =>
       written_together w w' /\
       (schedule_ok (stored w) -> schedule_ok (stored w')))) /\
  (forall env forceRefresh w,
     post (fetchImage env forceRefresh) w (fun _ w' =>
       written_together w w')) /\
  (forall env w,
     post (fetchNextScreen env) w (fun _ w' => written_together w w')) /\
  (forall script,
     schedule_ok (stored (perform_all script (world_of empty_storage)))).
Proof.
  assert (Hstep : forall env op w,
            post (perform env op) w (fun _ w' =>
              written_together w w' /\
              (schedule_ok (stored w) -> schedule_ok (stored w')))).
  { intros env op w. eapply post_mono; [apply perform_schedule|].
    intros o w' H. split; [exact H | by apply schedule_ok_written]. }
  split; [exact Hstep|].
  split; [apply fetchImage_schedule|].
  split.
  { intros env w. pose proof (perform_schedule env FetchNextScreen w) as H.
    cbn [perform] in H. unfold post, bind in *.
    by destruct (fetchNextScreen env w) as [[v|e] w']. }
  intros script.
  assert (Hall : forall w, schedule_ok (stored w) ->
                           schedule_ok (stored (perform_all script w))).
  { induction script as [|[env op] script IH]; intros w Hw; [exact Hw|].
    cbn [perform_all fold_left]. apply IH.
    destruct (Hstep env op w) as [_ H]. by apply H. }
  apply Hall. intros nf Hnf. discriminate.
Qed.

Lemma nextFetch_schedule_witness :
  let w' := perform_all
              [(delivering "https://x/b.png" "data:image/png;base64,BBBB",
                SaveManualApiKey "key-2");
               (answering 429, FetchImage true);
               (offline, SelectDevice kitchen)]
              (world_of empty_storage) in
  nextFetch (stored w') = Some 65000 /\ schedule_ok (stored w').
Proof.
  intros w'. split; [vm_compute; reflexivity|].
  destruct nextFetch_schedule as (_ & _ & _ & H). apply H.
Defined.

(** ** First-setup routing (C6) *)













(** ** No exception crosses the boundary (C8) *)

Lemma unchanged_image_cached forceRefresh currentImage imageUrl img :
  unchanged_image forceRefresh currentImage imageUrl = Some img ->
  currentImage = Some img.
Proof.
  unfold unchanged_image. destruct currentImage as [c|]; [|done].
  destruct (_ && _); congruence.
Qed.

(** X23.  The three calls that carry an API key return normally, whatever the
    store holds and whatever the surroundings do (any status, a body that
    cannot be read, a network failure, a failed image download):
    [fetchImage] returns [null], the cached image URL, or, after a 2xx
    metadata response, the cached URL of the unchanged image or the
    downloaded data URL; [fetchNextScreen] returns [null] or the downloaded
    data URL; [triggerSpecialFunction] returns a boolean, [true] only after
    a 2xx response. *)
Lemma keyed_calls_never_raise (env : Env) (forceRefresh : bool) (w : World) :
  post (fetchImage env forceRefresh) w (fun o _ =>
    exists v, o = Return v /\
      (v = None \/ v = cached_url (currentImage (stored w)) \/
       exists r, api_reply env = Some r /\ ok r = true /\
         (v = url <$> currentImage (stored w) \/
          exists ri, image_reply env = Some ri /\ ok ri = true /\
                     v = body ri))) /\
  post (fetchNextScreen env) w (fun o _ =>
    exists v, o = Return v /\
      (v = None \/
       exists r ri, api_reply env = Some r /\ ok r = true /\
                    image_reply env = Some ri /\ ok ri = true /\
                    v = body ri)) /\
  post (triggerSpecialFunction env) w (fun o _ =>
    exists v, o = Return v /\
      (v = true -> exists r, api_reply env = Some r /\ ok r = true)).
Proof.
  split; [|split].
  - unfold fetchImage, in_backoff, hasCompletedFirstSetup,
      markFirstSetupComplete.
    run; world_simpl; path_facts; (eexists; split; [reflexivity|]);
      first [ by left | by right; left | idtac ].
    all: right; right; eexists; split; [reflexivity|]; split; [done|].
    all: first
      [ left;
        match goal with
        | H : unchanged_image _ _ _ = Some _ |- _ =>
            apply unchanged_image_cached in H; by rewrite H
        end
      | right; eauto ].
  - unfold fetchNextScreen, in_backoff.
    run; world_simpl; path_facts; (eexists; split; [reflexivity|]);
      first [ by left | right; eauto 10 ].
  - unfold triggerSpecialFunction.
    run; world_simpl; path_facts; (eexists; split; [reflexivity|]);
      first [ done | eauto ].
Qed.

(** While the stored device list is an array, [fetchDevices] returns
    normally too: [null], the stored list, or the value a 2xx response
    carried. *)
Lemma fetchDevices_returns (env : Env) (environment : Environment)
  (w : World) (items : list Device) :
  devices (stored w) = Array items ->
  post (fetchDevices env environment) w (fun o _ =>
    exists v, o = Return v /\
      (v = Null \/ v = Array items \/
       exists r, devices_reply env = Some r /\ ok r = true /\
                 body r = Some v)).
Proof.
  intros Hstored. unfold fetchDevices.
  apply post_bind, post_getStorageItem.
  change (default (Array []) (read STORAGE_KEYS.devices (localStorage w)))
    with (devices (stored w)).
  rewrite Hstored. unfold length_of.
  run; world_simpl; path_facts; (eexists; split; [reflexivity|]);
    first [ by left | by right; left | right; right; eauto ].
Qed.

(** With [null] stored as the device list, [fetchDevices] raises as soon as
    the request fails at the network level: the [catch] handler reads
    [storedDevices.length]. *)
Lemma fetchDevices_raises (env : Env) (environment : Environment)
  (w : World) :
  devices (stored w) = Null -> devices_reply env = None ->
  post (fetchDevices env environment) w (fun o _ => o = Raise TypeError).
Proof.
  intros Hstored Hreply. unfold fetchDevices.
  apply post_bind, post_getStorageItem.
  change (default (Array []) (read STORAGE_KEYS.devices (localStorage w)))
    with (devices (stored w)).
  rewrite Hstored, Hreply. unfold length_of.
  run. reflexivity.
Qed.

(** C8, where the code falls short of it.  [/devices.json] answers 200 with
    the JSON value [null]: [fetchDevices] stores it as the device list and
    returns [null].  The next call of [fetchDevices], made while the
    network is down, raises a [TypeError] across its boundary instead of
    returning [null] or a cached list. *)
Theorem fetchDevices_raises_after_null_body :
  let first := fetchDevices (listing Null) production (world_of empty_storage) in
  let second := fetchDevices offline production first.2 in
  first.1 = Return Null /\
  trmnl_devices (localStorage first.2) = Some Null /\
  second.1 = Raise TypeError /\
  ~ returns_normally second.1.
Proof.
  intros first second.
  assert (Hsecond : second.1 = Raise TypeError).
  { apply (fetchDevices_raises offline production first.2); reflexivity. }
  split; [reflexivity|]. split; [reflexivity|]. split; [exact Hsecond|].
  rewrite Hsecond. intros [v Hv]. discriminate.
Qed.

(** ** The countdown (C9) *)

Lemma pad_small (k : nat) :
  (k < 100)%nat -> pad (Z.of_nat k) = two_digits (Z.of_nat k).
Proof.
  intros Hk.
  do 100 (destruct k as [|k]; [vm_compute; reflexivity|]).
  lia.
Qed.

Lemma toString_wide (n : Z) :
  10 <= n -> (2 <= String.length (toString n))%nat.
Proof.
  intros Hn. destruct n as [|p|p]; try lia.
  unfold toString. cbn [Z.to_int NilZero.string_of_int].
  pose proof (DecimalPos.Unsigned.of_to p) as Hp.
  pose proof (DecimalPos.Unsigned.to_uint_nonnil p) as Hnil.
  destruct (Pos.to_uint p) as [|u|u|u|u|u|u|u|u|u|u]; [done|..].
  all: destruct u;
    cbn [NilZero.string_of_uint NilEmpty.string_of_uint String.length];
    try lia.
  all: vm_compute in Hp; first [discriminate | injection Hp as <-; lia].
Qed.

Lemma pad_zero_padded (n : Z) : 0 <= n -> pad n = zero_padded n.
Proof.
  intros Hn. unfold zero_padded.
  destruct (Z.ltb_spec n 100) as [Hlt|Hge].
  - rewrite <- (Z2Nat.id n) by lia. apply pad_small. lia.
  - unfold pad, padStart.
    pose proof (toString_wide n ltac:(lia)) as Hlen.
    replace (2 - String.length (toString n))%nat with 0%nat by lia.
    reflexivity.
Qed.

Lemma countdown_eq (remaining : Z) :
  0 <= remaining ->
  (let totalSeconds := remaining / 1000 in
   let hours := totalSeconds / 3600 in
   let minutes := Z.rem totalSeconds 3600 / 60 in
   let seconds := Z.rem totalSeconds 60 in
   if 0 <? hours
   then pad hours ++ ":" ++ pad minutes ++ ":" ++ pad seconds
   else pad minutes ++ ":" ++ pad seconds)
  = countdown remaining.
Proof.
  intros Hr. cbv zeta. unfold countdown.
  assert (Hts : 0 <= remaining / 1000) by (apply Z.div_pos; lia).
  rewrite !Z.rem_mod_nonneg by lia.
  assert (Hh : remaining / 1000 / 3600 = remaining / 3600000)
    by (rewrite Z.div_div by lia; reflexivity).
  assert (Hm : (remaining / 1000) mod 3600 / 60 = (remaining / 60000) mod 60).
  { replace 3600 with (60 * 60) by reflexivity.
    rewrite Z.rem_mul_r by lia.
    rewrite (Z.mul_comm 60 ((remaining / 1000 / 60) mod 60)).
    rewrite Z.div_add by lia.
    rewrite Z.div_small by (apply Z.mod_pos_bound; lia).
    rewrite Z.div_div by lia. reflexivity. }
  rewrite Hh, Hm.
  assert (0 <= remaining / 3600000) by (apply Z.div_pos; lia).
  assert (Hmb : 0 <= (remaining / 60000) mod 60 < 60)
    by (apply Z.mod_pos_bound; lia).
  assert (Hsb : 0 <= (remaining / 1000) mod 60 < 60)
    by (apply Z.mod_pos_bound; lia).
  rewrite !pad_zero_padded by lia.
  assert (Hm2 : zero_padded ((remaining / 60000) mod 60)
                = two_digits ((remaining / 60000) mod 60)).
  { unfold zero_padded. destruct (Z.ltb_spec ((remaining / 60000) mod 60) 100);
      [reflexivity | lia]. }
  assert (Hs2 : zero_padded ((remaining / 1000) mod 60)
                = two_digits ((remaining / 1000) mod 60)).
  { unfold zero_padded. destruct (Z.ltb_spec ((remaining / 1000) mod 60) 100);
      [reflexivity | lia]. }
  rewrite Hm2, Hs2.
  destruct (Z.ltb_spec 0 (remaining / 3600000)) as [Hpos|Hzero];
    destruct (Z.leb_spec 3600000 remaining) as [Hge|Hlt]; try reflexivity.
  - exfalso. assert (remaining / 3600000 = 0) by (apply Z.div_small; lia). lia.
  - exfalso.
    assert (1 <= remaining / 3600000)
      by (apply Z.div_le_lower_bound; lia).
    lia.
Qed.

(** C9, as the code has it.  [formatTimeRemaining] returns ["Unknown"] when
    [nextFetch] is [null] and also when it is [0]; for every other value it
    returns the countdown of [nextFetch - now] floored at zero: zero-padded
    [HH:MM:SS] when at least one hour remains and zero-padded [MM:SS]
    otherwise.  It reads the clock at most once and touches neither the
    store nor the network. *)
Theorem countdown_display (env : Env) (nextFetch : option Z) (w : World) :
  post (formatTimeRemaining env nextFetch) w (fun o w' =>
    o = Return (match nextFetch with
                | None => "Unknown"
                | Some t =>
                    if t =? 0 then "Unknown"
                    else countdown (Z.max 0 (t - now_at env w))
                end) /\
    localStorage w' = localStorage w /\ requests w' = requests w) /\
  (forall remaining, 0 <= remaining < 3600000 ->
     countdown remaining
     = two_digits (remaining / 60000) ++ ":"
       ++ two_digits ((remaining / 1000) mod 60)) /\
  countdown 0 = "00:00" /\ countdown 3599999 = "59:59" /\
  countdown 3600000 = "01:00:00" /\ countdown 360000000 = "100:00:00".
Proof.
  split.
  - unfold formatTimeRemaining.
    destruct nextFetch as [t|]; [|by apply post_ret].
    unfold truthy_number. rewrite negb_involutive.
    destruct (t =? 0); [by apply post_ret|].
    apply post_bind, post_Date_now. lazy beta iota zeta.
    pose proof (countdown_eq (Z.max 0 (t - now_at env w)) ltac:(lia)) as E.
    cbv zeta in E.
    destruct (0 <? Z.max 0 (t - now_at env w) / 1000 / 3600);
      apply post_ret; (split; [|done]); f_equal; exact E.
  - split; [|repeat split; vm_compute; reflexivity].
    intros remaining Hr. unfold countdown.
    destruct (Z.leb_spec 3600000 remaining); [lia|].
    rewrite (Z.mod_small (remaining / 60000)); [reflexivity|].
    split; [apply Z.div_pos; lia | apply Z.div_lt_upper_bound; lia].
Qed.

(** For a [nextFetch] of [0], which is a value and not [null],
    [formatTimeRemaining] returns ["Unknown"] where the countdown of the
    remaining time, zero, is ["00:00"]: it does not meet C9 as stated. *)
Lemma zero_nextFetch_reads_unknown :
  ~ countdown_claim (answering 200) (Some 0) (world_of empty_storage).
Proof.
  unfold countdown_claim, post. vm_compute. discriminate.
Qed.

(** * Further properties of the code *)

(** ** Tools *)

(** Settle the guards met along a path: the API key that was or was not
    resolved, and the outcome of the window test. *)
Ltac settle_guards :=
  repeat match goal with
  | H : ?x = Some _ |- context [?x] => rewrite H
  | H : ?x = None |- context [?x] => rewrite H
  | H : truthy_number _ = _ |- _ => rewrite H in *
  end;
  repeat match goal with
  | H : context [?a <? ?b] |- _ => destruct (a <? b)
  end;
  cbn [andb negb] in *.

(** A property of a call that sends nothing may assume that the log did
    not grow. *)
Lemma post_silent {A} (m : M A) w (Q : Outcome A -> World -> Prop) :
  post m w (fun o w' => requests w' = requests w -> Q o w') ->
  silent m w -> post m w Q.
Proof. unfold post, silent. auto. Qed.

(** [fetchImage] sends its metadata request exactly when an API key
    resolves and the window does not hold it back. *)
Lemma fetchImage_reach (env : Env) (forceRefresh : bool) (w : World) :
  attempted (fetchImage env forceRefresh) w <->
  is_Some (api_key_of w) /\
  (forceRefresh = true \/ window_open env w = false).
Proof.
  change (post (fetchImage env forceRefresh) w (fun _ w' =>
    requests w' <> requests w <->
    is_Some (api_key_of w) /\
    (forceRefresh = true \/ window_open env w = false))).
  unfold fetchImage, in_backoff, hasCompletedFirstSetup,
    markFirstSetupComplete.
  run; unfold window_open, api_key_of; world_simpl; path_facts.
  all: destruct forceRefresh; settle_guards.
  all: (split;
        [ intros Hreq;
          first [ by destruct Hreq
                | split; [by eauto | first [by left | by right]] ]
        | intros [[k Hk] Hguard];
          first [ log_grows | exfalso; intuition congruence ] ]).
Qed.

(** [fetchNextScreen] sends its metadata request exactly when an API key
    resolves and the window is not open. *)
Lemma fetchNextScreen_reach (env : Env) (w : World) :
  attempted (fetchNextScreen env) w <->
  is_Some (api_key_of w) /\ window_open env w = false.
Proof.
  change (post (fetchNextScreen env) w (fun _ w' =>
    requests w' <> requests w <->
    is_Some (api_key_of w) /\ window_open env w = false)).
  unfold fetchNextScreen, in_backoff.
  run; unfold window_open, api_key_of; world_simpl; path_facts.
  all: settle_guards.
  all: (split;
        [ intros Hreq; first [by destruct Hreq | split; [by eauto | done]]
        | intros [[k Hk] Hguard];
          first [ log_grows | exfalso; congruence ] ]).
Qed.

(** Bounds on the status of a 2xx response. *)
Lemma ok_bounds {A} (r : Response A) :
  ok r = true <-> 200 <= status r <= 299.
Proof. unfold ok. rewrite andb_true_iff, !Z.leb_le. tauto. Qed.

Lemma not_ok_bounds {A} (r : Response A) :
  ok r = false <-> ~ 200 <= status r <= 299.
Proof. rewrite <- ok_bounds. by destruct (ok r). Qed.

(** Rewrite with the tests met along a path, in the goal. *)
Ltac path_rewrite :=
  repeat match goal with
  | H : ?x = Some _ |- context [?x] => rewrite H
  | H : ?x = None |- context [?x] => rewrite H
  | H : ?x = true |- context [?x] => rewrite H
  | H : ?x = false |- context [?x] => rewrite H
  end.

(** Close a path on which two readings of the same reply disagree. *)
Ltac replies_agree :=
  repeat match goal with
  | H : ?x = Some ?a, H' : ?x = Some ?b |- _ =>
      assert (a = b) by congruence; subst; clear H'
  | H : ?x = Some _, H' : ?x = None |- _ => congruence
  | H : ok _ = true |- _ => apply ok_bounds in H
  | H : ok _ = false |- _ => apply not_ok_bounds in H
  end.

(** Read the slots of the store after the updates of a path. *)
Ltac slots :=
  unfold apply_updates;
  cbn [retry_update timestamps_update image_update
       Partial.environment Partial.devices Partial.selectedDevice
       Partial.currentImage Partial.lastFetch Partial.nextFetch
       Partial.refreshRate Partial.retryCount Partial.retryAfter];
  rewrite ?store_None; rewrite ?store_frame by (intros; reflexivity).

(** A run has one first request. *)
Lemma first_request_unique w w' req req' :
  first_request w w' req -> first_request w w' req' -> req = req'.
Proof.
  intros [later E] [later' E']. rewrite E in E'.
  change (later ++ req :: requests w)%list
    with (later ++ [req] ++ requests w)%list in E'.
  change (later' ++ req' :: requests w)%list
    with (later' ++ [req'] ++ requests w)%list in E'.
  rewrite !app_assoc in E'. apply app_inv_tail in E'.
  by apply app_inj_tail in E' as [_ ?].
Qed.

Lemma post_and {A} (m : M A) w (Q1 Q2 : Outcome A -> World -> Prop) :
  post m w Q1 -> post m w Q2 -> post m w (fun o w' => Q1 o w' /\ Q2 o w').
Proof. unfold post. auto. Qed.

(** The first request of [fetchImage], in full. *)
Lemma fetchImage_first_request env forceRefresh w :
  post (fetchImage env forceRefresh) w (fun _ w' =>
    forall req, first_request w w' req ->
    exists apiKey,
      api_key_of w = Some apiKey /\
      req = image_metadata_request (environment (stored w))
              (first_setup_done w (device_key (stored w))) apiKey).
Proof.
  unfold fetchImage, in_backoff, hasCompletedFirstSetup,
    markFirstSetupComplete, image_metadata_request, api_key_of, device_key.
  run; rewrite ?first_setup_done_eq; world_simpl; path_facts.
  all: intros req Hreq.
  all: try (exfalso; destruct Hreq as [later E];
            apply (f_equal (@length Request)) in E;
            rewrite length_app in E; cbn in E; lia).
  all: eexists; (split; [reflexivity|]).
  all: eapply first_request_unique; [exact Hreq|].
  all: destruct (bool_decide _);
    first [by exists [] | by eexists [_]].
Qed.

(** The polling calls leave the configuration alone. *)
Lemma fetchImage_configuration env forceRefresh w :
  post (fetchImage env forceRefresh) w (fun _ w' => same_configuration w w').
Proof.
  unfold fetchImage, in_backoff, hasCompletedFirstSetup,
    markFirstSetupComplete, same_configuration.
  run; world_simpl; slots; done.
Qed.

Lemma same_configuration_stored w w' :
  same_configuration w w' ->
  environment (stored w') = environment (stored w) /\
  devices (stored w') = devices (stored w) /\
  selectedDevice (stored w') = selectedDevice (stored w).
Proof.
  unfold same_configuration, stored, state_of. cbn.
  by intros (-> & -> & ->).
Qed.

(** [fetchDevices] sends its one request on every path. *)
Lemma fetchDevices_frame_requests env e w :
  post (fetchDevices env e) w (fun _ w' =>
    requests w' = devices_request e :: requests w).
Proof. unfold fetchDevices, length_of. run; reflexivity. Qed.

(** ** When a call reaches the network *)

(** X1.  [fetchImage] sends its metadata request exactly when an API key
    resolves from the selected device and either [forceRefresh] is set or
    the backoff window is not open; [fetchNextScreen] exactly when an API
    key resolves and the window is not open; [triggerSpecialFunction]
    exactly when an API key resolves, whatever the backoff state. *)
Theorem network_reached (env : Env) (forceRefresh : bool) (w : World) :
  (attempted (fetchImage env forceRefresh) w <->
   is_Some (api_key_of w) /\
   (forceRefresh = true \/ window_open env w = false)) /\
  (attempted (fetchNextScreen env) w <->
   is_Some (api_key_of w) /\ window_open env w = false) /\
  (attempted (triggerSpecialFunction env) w <-> is_Some (api_key_of w)).
Proof.
  split; [apply fetchImage_reach|]. split; [apply fetchNextScreen_reach|].
  change (post (triggerSpecialFunction env) w (fun _ w' =>
    requests w' <> requests w <-> is_Some (api_key_of w))).
  unfold triggerSpecialFunction.
  run; unfold api_key_of; world_simpl; path_facts.
  all: settle_guards.
  all: (split;
        [ intros Hreq; first [by destruct Hreq | by eauto]
        | intros [k Hk]; first [ log_grows | exfalso; congruence ] ]).
Qed.

(** X2.  A call of [fetchImage], [fetchNextScreen] or
    [triggerSpecialFunction] that sends no request writes nothing to the
    store.  [fetchImage] then returns the cached image URL when it stopped
    at the open backoff window, and [null] when it stopped for want of an
    API key; [fetchNextScreen] returns [null] and [triggerSpecialFunction]
    [false]: a missing key records no backoff. *)
Theorem silent_call_writes_nothing
  (env : Env) (forceRefresh : bool) (w : World) :
  (silent (fetchImage env forceRefresh) w ->
   post (fetchImage env forceRefresh) w (fun o w' =>
     localStorage w' = localStorage w /\
     o = Return (if window_open env w && negb forceRefresh
                 then cached_url (currentImage (stored w)) else None))) /\
  (silent (fetchNextScreen env) w ->
   post (fetchNextScreen env) w (fun o w' =>
     localStorage w' = localStorage w /\ o = Return None)) /\
  (silent (triggerSpecialFunction env) w ->
   post (triggerSpecialFunction env) w (fun o w' =>
     localStorage w' = localStorage w /\ o = Return false)).
Proof.
  split; [|split]; apply post_silent.
  - unfold fetchImage, in_backoff, hasCompletedFirstSetup,
      markFirstSetupComplete.
    run; unfold window_open; world_simpl; intros Hlog;
      try (exfalso; symmetry in Hlog; revert Hlog; log_grows).
    all: repeat match goal with
         | H : ?x = _ |- context [?x] => rewrite H
         end; cbn [andb] in *;
      repeat match goal with
      | H : _ && _ = _ |- _ => rewrite H
      end; done.
  - unfold fetchNextScreen, in_backoff.
    run; world_simpl; intros Hlog;
      try (exfalso; symmetry in Hlog; revert Hlog; log_grows); done.
  - unfold triggerSpecialFunction.
    run; world_simpl; intros Hlog;
      try (exfalso; symmetry in Hlog; revert Hlog; log_grows); done.
Qed.

Lemma silent_call_writes_nothing_witness :
  let w := world_of (kitchen_store 1 (Some 10000) None) in
  let unselected :=
    world_of (write STORAGE_KEYS.selectedDevice (Some None)
                (kitchen_store 0 None None)) in
  (fetchImage offline false w).1
    = Return (Some "data:image/png;base64,AAAA") /\
  localStorage (fetchImage offline false w).2 = localStorage w /\
  (fetchImage offline true unselected).1 = Return None /\
  localStorage (fetchImage offline true unselected).2
    = localStorage unselected.
Proof.
  intros w unselected.
  destruct (silent_call_writes_nothing offline false w) as (H1 & _ & _).
  destruct (silent_call_writes_nothing offline true unselected)
    as (H2 & _ & _).
  assert (S1 : silent (fetchImage offline false) w)
    by (vm_compute; reflexivity).
  assert (S2 : silent (fetchImage offline true) unselected)
    by (vm_compute; reflexivity).
  destruct (H1 S1) as [Hs1 Ho1]. destruct (H2 S2) as [Hs2 Ho2].
  split; [exact Ho1|]. split; [exact Hs1|]. split; [exact Ho2 | exact Hs2].
Defined.

(** X3.  [triggerSpecialFunction] never writes to the store and never
    reads the clock.  It always returns a boolean, and returns [true]
    exactly when an API key resolves and the response is a 2xx.  With a key
    it sends one request, to [/api/display] of the configured host, with
    the key in [Access-Token] and [Special-Function: true]. *)
Theorem special_function_call (env : Env) (w : World) :
  post (triggerSpecialFunction env) w (fun o w' =>
    localStorage w' = localStorage w /\ ticks w' = ticks w /\
    (exists b, o = Return b) /\
    (o = Return true <->
     is_Some (api_key_of w) /\
     exists r, api_reply env = Some r /\ ok r = true) /\
    requests w'
    = match api_key_of w with
      | Some apiKey =>
          {| req_url := HOSTS (environment (stored w)) ++ "/api/display";
             req_headers := [("Access-Token", apiKey);
                             ("Special-Function", "true");
                             ("Cache-Control", "no-cache")];
             req_credentials := false |} :: requests w
      | None => requests w
      end).
Proof.
  unfold triggerSpecialFunction, api_key_of.
  run; world_simpl; path_facts.
  all: repeat match goal with
       | H : ?x = _ |- context [?x] => rewrite H
       end.
  all: split; [done|]; split; [done|]; split; [by eauto|].
  all: split; [|done].
  all: split; [intros [= ] | intros [[k Hk] (r0 & Hr & Hok)]];
    try done; try (split; [by eauto | by eauto]).
  all: try (exfalso; simplify_eq; unfold unauthorized, ok in *;
            first [congruence | lia]).
Qed.

(** ** The download path *)


(** X5.  [fetchImage] sends at most two requests, and it sends the second
    one, the image download, exactly when an API key resolves, the backoff
    window does not hold the call back ([forceRefresh], or the window is
    not open), the metadata response is a 2xx with a readable body, and the
    change test fails: [forceRefresh] is set, or no image is cached, or the
    cached image came from another URL. *)
Theorem image_request_condition
  (env : Env) (forceRefresh : bool) (w : World) :
  post (fetchImage env forceRefresh) w (fun _ w' =>
    (length (requests w') <= 2 + length (requests w))%nat /\
    (image_requested w w' <->
     is_Some (api_key_of w) /\
     (forceRefresh = true \/ window_open env w = false) /\
     exists data,
       metadata_ok env data /\
       unchanged_image forceRefresh (currentImage (stored w)) (image_url data)
         = None)).
Proof.
  unfold fetchImage, in_backoff, hasCompletedFirstSetup,
    markFirstSetupComplete.
  run; unfold window_open, api_key_of, image_requested, metadata_ok;
    world_simpl; path_facts; cbn [length].
  all: (split; [lia|]).
  all: (split;
        [ intros Hlen; try lia
        | intros (Hkey & Hwin & ? & (? & Hr & Hok & Hbody) & Hnew);
          try reflexivity; exfalso ]).
  all: try (replies_agree; unfold unauthorized in *; lia).
  all: path_rewrite.
  all: repeat match goal with
       | H : truthy_number _ = _ |- _ => rewrite H in *
       end.
  all: repeat match goal with
       | H : context [?a <? ?b] |- _ => destruct (a <? b)
       end;
       try destruct forceRefresh; cbn [andb negb] in *.
  all: try congruence.
  all: try (exfalso; destruct Hkey; intuition congruence).
  all: (split; [by eauto|]).
  all: (split; [first [by left | by right]|]).
  all: eexists; (split; [eexists; split; [reflexivity|]; by split|]).
  all: done.
Qed.

Ltac cache_paths :=
  run; unfold cache_kept_or_replaced, metadata_ok, image_ok; world_simpl;
  path_facts; slots;
  (split; [reflexivity|]); (split; [reflexivity|]); (split; [reflexivity|]);
  first
    [ left; reflexivity
    | right; eexists _, _, _;
      split; [eexists; split; [eassumption|]; by split|];
      split; [eexists; split; [eassumption|]; by split|];
      done ].

(** X6.  [fetchImage] and [fetchNextScreen] never write the environment,
    the device list or the selected device.  They leave the cached image as
    it was on every path but one: after a readable 2xx metadata response
    and a successful download the image stored is the downloaded one, filed
    under the URL the metadata named, and its data URL is the value
    returned.  A failure of any kind keeps the cache. *)
Theorem cached_image_survives (env : Env) (forceRefresh : bool) (w : World) :
  post (fetchImage env forceRefresh) w (cache_kept_or_replaced env w) /\
  post (fetchNextScreen env) w (cache_kept_or_replaced env w).
Proof.
  split.
  - unfold fetchImage, in_backoff, hasCompletedFirstSetup,
      markFirstSetupComplete.
    cache_paths.
  - unfold fetchNextScreen, in_backoff.
    cache_paths.
Qed.

(** X7.  With an image cached under a non-empty data URL and an API key at
    hand, [fetchImage] returns an image whenever the response is not a 401
    or 403: the data URL it downloaded, and in every other case (open
    window, 429, any other status, unreadable body, network failure,
    failed download, unchanged image) the cached URL. *)
Theorem cached_image_fallback
  (env : Env) (forceRefresh : bool) (w : World) (u : string) :
  cached_url (currentImage (stored w)) = Some u ->
  is_Some (api_key_of w) ->
  (forall r, api_reply env = Some r -> ~ unauthorized r) ->
  post (fetchImage env forceRefresh) w (fun o _ =>
    o = Return (Some u) \/
    exists dataUrl, image_ok env dataUrl /\ o = Return (Some dataUrl)).
Proof.
  intros Hu [k Hk] Hauth. unfold api_key_of in Hk.
  unfold fetchImage, in_backoff, hasCompletedFirstSetup,
    markFirstSetupComplete.
  apply post_bind, post_getState. rewrite Hk.
  run; unfold image_ok; world_simpl; path_facts.
  all: try (by left; rewrite Hu).
  all: try (exfalso; eapply Hauth; [first [eassumption | reflexivity]|];
            assumption).
  all: try (right; eexists; split; [eexists; split; [eassumption|]; by split|];
            reflexivity).
  all: left.
  all: match goal with
       | H : unchanged_image _ _ _ = Some _ |- _ =>
           apply unchanged_image_cached in H; rewrite H in Hu
       end.
  all: unfold cached_url in Hu; destruct (truthy_string _); congruence.
Qed.
Lemma cached_image_fallback_witness :
  let w := world_of (kitchen_store 0 None None) in
  (fetchImage (answering 500) true w).1
  = Return (Some "data:image/png;base64,AAAA").
Proof.
  intros w.
  destruct (cached_image_fallback (answering 500) true w
              "data:image/png;base64,AAAA") as [Ho | (d & (r & Hr & _) & _)].
  - reflexivity.
  - by eexists.
  - intros r Hr. injection Hr as <-. unfold unauthorized. cbn. lia.
  - exact Ho.
  - discriminate.
Defined.

(** ** [fetchNextScreen] *)

(** X8.  A [fetchNextScreen] call whose metadata request is answered by a
    readable 2xx and whose download succeeds returns the downloaded data
    URL and stores the image, the schedule and the cleared retry state as
    [fetchImage] does.  Its first request goes to [/api/display] of the
    configured host with the API key in [Access-Token]; it downloads the
    image whether or not the cached one came from the same URL, and it
    leaves the first-setup flags alone. *)
Theorem next_screen_downloads (env : Env) (w : World)
  (data : ScreenData) (dataUrl : string) :
  attempted (fetchNextScreen env) w ->
  metadata_ok env data -> image_ok env dataUrl ->
  post (fetchNextScreen env) w (fun o w' =>
    let now := last_reading env w' in
    let rate := or_number (refresh_rate data) DEFAULT_REFRESH_RATE in
    o = Return (Some dataUrl) /\
    (exists apiKey,
       api_key_of w = Some apiKey /\
       requests w'
       = image_request (image_url data)
           :: display_request (stored w) apiKey :: requests w) /\
    stored w'
    = {| environment := environment (stored w);
         devices := devices (stored w);
         selectedDevice := selectedDevice (stored w);
         currentImage :=
           Some {| url := dataUrl; originalUrl := image_url data;
                   filename := or_string (data_filename data) "display.jpg";
                   timestamp := now |};
         lastFetch := Some now;
         nextFetch := Some (now + rate * 1000);
         refreshRate := rate;
         retryCount := 0;
         retryAfter := None |} /\
    trmnl_firstSetupComplete (localStorage w')
      = trmnl_firstSetupComplete (localStorage w)).
Proof.
  intros Hatt (r & Hr & Hok & Hbody) (ri & Hri & Hoki & Hbodyi).
  revert Hatt. apply post_attempted.
  unfold fetchNextScreen, in_backoff, api_key_of.
  apply post_bind, post_getState.
  rewrite Hr, Hri.
  run; world_simpl; intros Hreq; try done.
  all: try (rewrite (ok_not_unauthorized r Hok) in *; discriminate).
  all: try (rewrite (ok_not_rate_limited r Hok) in *; discriminate).
  all: try (rewrite Hok in *; discriminate).
  all: try (rewrite Hoki in *; discriminate).
  all: try congruence.
  all: assert (s0 = data) as -> by congruence.
  all: assert (s1 = dataUrl) as -> by congruence.
  all: split; [reflexivity|]; split; [by eexists|]; by split.
Qed.
Lemma next_screen_downloads_witness :
  let env := delivering "https://x/a.png" "data:image/png;base64,BBBB" in
  let w := world_of (kitchen_store 0 None None) in
  let run := fetchNextScreen env w in
  originalUrl <$> currentImage (stored w) = Some "https://x/a.png" /\
  run.1 = Return (Some "data:image/png;base64,BBBB") /\
  length (requests run.2) = 2%nat /\
  url <$> currentImage (stored run.2) = Some "data:image/png;base64,BBBB" /\
  first_setup_done run.2 "kitchen" = false.
Proof.
  intros env w run.
  assert (Ha : attempted (fetchNextScreen env) w)
    by (vm_compute; discriminate).
  destruct (next_screen_downloads env w
              {| image_url := "https://x/a.png"; data_filename := None;
                 refresh_rate := Some 60 |}
              "data:image/png;base64,BBBB" Ha)
    as (Ho & (k & _ & Hreq) & Hst & Hflag).
  - eexists. split; [reflexivity|]. by split.
  - eexists. split; [reflexivity|]. by split.
  - fold run in Ho, Hreq, Hst, Hflag.
    split; [reflexivity|]. split; [exact Ho|].
    split; [by rewrite Hreq|].
    split; [by rewrite Hst|].
    rewrite first_setup_done_eq, Hflag. reflexivity.
Defined.


(** ** [fetchDevices] *)

(** X9.  When [/devices.json] answers with a 2xx whose body is an array,
    [fetchDevices] returns that array and stores it as the device list.
    With no device selected it selects the first element of a non-empty
    array; a device that is selected stays selected, whether or not the
    new list contains it.  Nothing else in the state record changes (the
    retry state is not reset), nor do the first-setup flags. *)
Theorem fetchDevices_stores_list (env : Env) (e : Environment)
  (w : World) (r : Response DeviceList) (items : list Device) :
  devices_reply env = Some r -> ok r = true -> body r = Some (Array items) ->
  post (fetchDevices env e) w (fun o w' =>
    o = Return (Array items) /\
    stored w'
    = {| environment := environment (stored w);
         devices := Array items;
         selectedDevice :=
           match selectedDevice (stored w) with
           | Some d => Some d
           | None => head items
           end;
         currentImage := currentImage (stored w);
         lastFetch := lastFetch (stored w);
         nextFetch := nextFetch (stored w);
         refreshRate := refreshRate (stored w);
         retryCount := retryCount (stored w);
         retryAfter := retryAfter (stored w) |} /\
    trmnl_firstSetupComplete (localStorage w')
      = trmnl_firstSetupComplete (localStorage w)).
Proof.
  intros Hr Hok Hbody. unfold fetchDevices, length_of.
  rewrite Hr.
  run; world_simpl.
  all: try (rewrite (ok_not_unauthorized r Hok) in *; discriminate).
  all: try (rewrite Hok in *; discriminate).
  all: try congruence.
  all: assert (d = Array items) as -> by congruence.
  all: repeat match goal with
       | H : Array _ = Array _ |- _ => injection H as <-
       end.
  all: (split; [reflexivity|]); (split; [|reflexivity]).
  all: destruct items; unfold merge; cbn in *; path_rewrite;
    first [reflexivity | done].
Qed.
Lemma fetchDevices_stores_list_witness :
  let run :=
    fetchDevices (listing (Array [kitchen])) production
      (world_of empty_storage) in
  run.1 = Return (Array [kitchen]) /\
  devices (stored run.2) = Array [kitchen] /\
  selectedDevice (stored run.2) = Some kitchen.
Proof.
  intros run.
  destruct (fetchDevices_stores_list (listing (Array [kitchen])) production
              (world_of empty_storage) _ [kitchen]
              eq_refl eq_refl eq_refl) as (Ho & Hst & _).
  fold run in Ho, Hst.
  split; [exact Ho|]. by rewrite Hst.
Defined.


(** X10.  While the stored device list is an array, a failed listing (a
    network failure, a 401 or 403, any other non-2xx status, a body that
    does not parse) makes [fetchDevices] return the stored list when it is
    not empty and [null] when it is, without raising and without writing
    to the store. *)
Theorem fetchDevices_falls_back (env : Env) (e : Environment)
  (w : World) (items : list Device) :
  devices (stored w) = Array items -> devices_failed env ->
  post (fetchDevices env e) w (fun o w' =>
    o = Return (match items with [] => Null | _ => Array items end) /\
    localStorage w' = localStorage w).
Proof.
  intros Hstored Hfail. unfold fetchDevices, devices_failed in *.
  apply post_bind, post_getStorageItem.
  change (default (Array []) (read STORAGE_KEYS.devices (localStorage w)))
    with (devices (stored w)).
  rewrite Hstored. unfold length_of.
  run; world_simpl; path_facts.
  all: try (destruct items; cbn [length Nat.ltb Nat.leb] in *; done).
  all: exfalso; destruct Hfail; congruence.
Qed.
Lemma fetchDevices_falls_back_witness :
  let w := world_of (kitchen_store 0 None None) in
  (fetchDevices (answering 401) production w).1 = Return (Array [kitchen]) /\
  localStorage (fetchDevices (answering 401) production w).2
    = localStorage w /\
  (fetchDevices offline production (world_of empty_storage)).1 = Return Null.
Proof.
  intros w.
  destruct (fetchDevices_falls_back (answering 401) production w [kitchen])
    as [Ho Hs]; [reflexivity | by left |].
  destruct (fetchDevices_falls_back offline production
              (world_of empty_storage) [])
    as [Ho' _]; [reflexivity | exact I |].
  split; [exact Ho|]. split; [exact Hs | exact Ho'].
Defined.


(** X11.  Every call of [fetchDevices] sends exactly one request: to
    [/devices.json] of the host of the environment it is given (not of the
    stored one), with the session cookie and without headers.  It never
    reads the clock and never writes the environment, the cached image or
    the retry state.  The selection changes only from none to the first
    element of the list it has just stored. *)
Theorem fetchDevices_frame (env : Env) (e : Environment) (w : World) :
  post (fetchDevices env e) w (fun _ w' =>
    requests w' = devices_request e :: requests w /\
    ticks w' = ticks w /\
    trmnl_environment (localStorage w') = trmnl_environment (localStorage w) /\
    trmnl_currentImage (localStorage w')
      = trmnl_currentImage (localStorage w) /\
    trmnl_retryCount (localStorage w') = trmnl_retryCount (localStorage w) /\
    trmnl_retryAfter (localStorage w') = trmnl_retryAfter (localStorage w) /\
    (selectedDevice (stored w') = selectedDevice (stored w) \/
     selectedDevice (stored w) = None /\
     exists first, selectedDevice (stored w') = Some first /\
                   element_0 (devices (stored w')) = Some first)).
Proof.
  unfold fetchDevices, length_of.
  run; world_simpl; slots.
  all: do 6 (split; [reflexivity|]).
  all: try (left; reflexivity).
  all: destruct items; cbn in *; [done | right; eauto].
Qed.

(** X12.  The only error that leaves [fetchDevices] is a [TypeError], and
    it leaves exactly when the stored device list is [null] and the [try]
    block does not run to its end: the [catch] handler then reads
    [storedDevices.length].  With an array stored, [fetchDevices] never
    raises. *)
Theorem fetchDevices_raises_exactly
  (env : Env) (e : Environment) (w : World) :
  post (fetchDevices env e) w (fun o _ =>
    (o = Raise TypeError <->
     devices (stored w) = Null /\ ~ devices_listed env w) /\
    (forall err, o = Raise err -> err = TypeError)).
Proof.
  unfold fetchDevices, devices_listed.
  apply post_bind, post_getStorageItem.
  change (default (Array []) (read STORAGE_KEYS.devices (localStorage w)))
    with (devices (stored w)).
  destruct (devices (stored w)) as [|items] eqn:Hstored; unfold length_of.
  - run; world_simpl; path_facts.
    all: (split; [|intros err; congruence]).
    all: (split;
          [ intros Ho;
            first [ discriminate
                  | split; [reflexivity|];
                    intros (r0 & v & Hr & Hok & Hbody & Hv) ]
          | intros [_ Hnot];
            first [ reflexivity | exfalso; apply Hnot ] ]).
    all: try (simplify_eq; replies_agree; unfold unauthorized in *;
              first [congruence | lia | intuition congruence]).
    all: eexists _, _; (split; [reflexivity|]); (split; [done|]);
      (split; [eassumption|]);
      first [by left | by right; congruence].
  - run; world_simpl; path_facts.
    all: (split; [|intros err; congruence]).
    all: split; [discriminate | intros [? _]; discriminate].
Qed.

(** ** Changing the device and the environment *)

(** X13.  After [selectDevice], the next [fetchImage] is not held back by
    a backoff window left by the previous device: it sends its metadata
    request exactly when the new device has a non-empty API key.  The
    request carries that key and is routed by the first-setup flag filed
    under the new device's id.  The cached image is not cleared by the
    change: when the request fails, the retry count restarts at 1 and the
    value returned is the cached URL of the image fetched before the
    change. *)
Theorem device_change_refetches
  (env : Env) (device : Device) (forceRefresh : bool) (w : World) :
  post (selectDevice device ;; fetchImage env forceRefresh) w (fun o w' =>
    selectedDevice (stored w') = Some device /\
    (requests w' <> requests w <-> truthy_string (api_key device) = true) /\
    (forall req, first_request w w' req ->
       req = image_metadata_request (environment (stored w))
               (first_setup_done w (setup_key device)) (api_key device)) /\
    (requests w' <> requests w -> api_failed env ->
     retryCount (stored w') = 1%nat /\
     o = Return (cached_url (currentImage (stored w))))).
Proof.
  unfold selectDevice.
  apply post_bind, post_bind, post_updateState, post_ret.
  unfold fetchImage.
  apply post_bind, post_getState. world_simpl.
  cbn [in_backoff]. apply post_bind, post_ret. cbn [andb].
  unfold resolve_api_key, setup_key.
  destruct (truthy_string (api_key device)) eqn:Hkey.
  - unfold hasCompletedFirstSetup, markFirstSetupComplete,
      image_metadata_request, api_failed.
    run; rewrite ?first_setup_done_eq; world_simpl; path_facts.
    all: cbn [fmap option_fmap option_map].
    all: (split; [reflexivity|]).
    all: (split; [split; [done | intros _; log_grows]|]).
    all: (split;
          [ path_rewrite; cbn [negb];
            intros req Hreq;
            eapply first_request_unique; [exact Hreq|];
            destruct (bool_decide _);
            first [by exists [] | by eexists [_]] |]).
    all: intros _ Hfail.
    all: try (split; reflexivity).
    all: exfalso; unfold unauthorized in *;
      destruct Hfail as [? [?|?]]; replies_agree;
      first [congruence | lia].
  - apply post_ret. world_simpl.
    split; [reflexivity|]. split; [split; [done | discriminate]|].
    split.
    + intros req [later E]. exfalso.
      apply (f_equal (@length Request)) in E.
      rewrite length_app in E. cbn in E. lia.
    + intros Hreq. done.
Qed.

(** X14.  After [setEnvironment], the next [fetchImage] sends its metadata
    request to the host of the new environment.  The change leaves the
    selection, the retry state and the first-setup flags as they were: the
    request is sent under the same conditions as before the change, with
    the API key of the device selected before, routed by that device's
    flag. *)
Theorem environment_change_redirects
  (env : Env) (e : Environment) (forceRefresh : bool) (w : World) :
  post (setEnvironment e ;; fetchImage env forceRefresh) w (fun _ w' =>
    environment (stored w') = e /\
    selectedDevice (stored w') = selectedDevice (stored w) /\
    (requests w' <> requests w <->
     is_Some (api_key_of w) /\
     (forceRefresh = true \/ window_open env w = false)) /\
    (forall req, first_request w w' req ->
     exists apiKey,
       api_key_of w = Some apiKey /\
       req = image_metadata_request e
               (first_setup_done w (device_key (stored w))) apiKey)).
Proof.
  unfold setEnvironment.
  apply post_bind, post_bind, post_updateState, post_ret.
  set (w1 := with_storage _ w).
  assert (Hst : stored w1
                = merge {| Partial.environment := Some e;
                           Partial.devices := None;
                           Partial.selectedDevice := None;
                           Partial.currentImage := None;
                           Partial.lastFetch := None;
                           Partial.nextFetch := None;
                           Partial.refreshRate := None;
                           Partial.retryCount := None;
                           Partial.retryAfter := None |} (stored w))
    by apply state_of_apply_updates.
  assert (Hkey : api_key_of w1 = api_key_of w)
    by (unfold api_key_of; by rewrite Hst).
  assert (Hwin : window_open env w1 = window_open env w)
    by (unfold window_open; by rewrite Hst).
  assert (Hflag : forall d, first_setup_done w1 d = first_setup_done w d).
  { intros d. rewrite !first_setup_done_eq. subst w1.
    cbn [localStorage with_storage]. by rewrite firstSetup_apply_updates. }
  assert (Hdev : device_key (stored w1) = device_key (stored w))
    by (unfold device_key; by rewrite Hst).
  assert (Henv : environment (stored w1) = e) by (by rewrite Hst).
  assert (Hsel : selectedDevice (stored w1) = selectedDevice (stored w))
    by (by rewrite Hst).
  assert (Hguards :
    post (fetchImage env forceRefresh) w1 (fun _ w' =>
      requests w' <> requests w1 <->
      is_Some (api_key_of w1) /\
      (forceRefresh = true \/ window_open env w1 = false)))
    by exact (fetchImage_reach env forceRefresh w1).
  eapply post_mono;
    [exact (post_and _ _ _ _
              (post_and _ _ _ _
                 (fetchImage_first_request env forceRefresh w1)
                 (fetchImage_configuration env forceRefresh w1))
              Hguards)|].
  intros o w' [[Hfirst Hconf] Hreach].
  apply same_configuration_stored in Hconf as (Henv' & _ & Hsel').
  change (requests w1) with (requests w) in Hreach.
  rewrite Hkey, Hwin in Hreach.
  split; [congruence|]. split; [congruence|]. split; [exact Hreach|].
  intros req Hreq.
  destruct (Hfirst req) as (apiKey & Hk & ->); [exact Hreq|].
  exists apiKey. split; [congruence|].
  by rewrite Henv, Hflag, Hdev.
Qed.

(** ** The store operations *)


(** X16.  After [clearState] the state record is the initial one
    (production, no devices, no selection, no image, a refresh rate of 30,
    no retry pending), no first-setup flag is set, and the three
    authenticated calls send nothing, write nothing and return [null] or
    [false] until a device is selected again. *)
Theorem clearState_forgets (env : Env) (forceRefresh : bool) (w : World) :
  post clearState w (fun o w0 =>
    o = Return tt /\ stored w0 = initial_state /\
    (forall d, first_setup_done w0 d = false) /\
    ticks w0 = ticks w /\ requests w0 = requests w /\
    post (fetchImage env forceRefresh) w0 (fun o' w' =>
      o' = Return None /\ w' = w0) /\
    post (fetchNextScreen env) w0 (fun o' w' =>
      o' = Return None /\ w' = w0) /\
    post (triggerSpecialFunction env) w0 (fun o' w' =>
      o' = Return false /\ w' = w0)).
Proof.
  unfold post, clearState. cbn [fst snd].
  split; [reflexivity|]. split; [reflexivity|].
  split.
  { intros d. rewrite first_setup_done_eq. cbn. by rewrite lookup_empty. }
  split; [reflexivity|]. split; [reflexivity|].
  repeat split.
Qed.

Lemma storage_ext (s s' : Storage) :
  trmnl_environment s = trmnl_environment s' ->
  trmnl_devices s = trmnl_devices s' ->
  trmnl_selectedDevice s = trmnl_selectedDevice s' ->
  trmnl_currentImage s = trmnl_currentImage s' ->
  trmnl_lastFetch s = trmnl_lastFetch s' ->
  trmnl_nextFetch s = trmnl_nextFetch s' ->
  trmnl_refreshRate s = trmnl_refreshRate s' ->
  trmnl_retryCount s = trmnl_retryCount s' ->
  trmnl_retryAfter s = trmnl_retryAfter s' ->
  trmnl_firstSetupComplete s = trmnl_firstSetupComplete s' ->
  s = s'.
Proof. destruct s, s'; cbn; congruence. Qed.

(** Read one slot through a pile of guarded writes. *)
Ltac through_writes :=
  repeat first
    [ progress cbn [store later_wins]
    | progress rewrite ?store_frame by (intros; reflexivity)
    | progress cbn [write STORAGE_KEYS.environment STORAGE_KEYS.devices
                    STORAGE_KEYS.selectedDevice STORAGE_KEYS.currentImage
                    STORAGE_KEYS.lastFetch STORAGE_KEYS.nextFetch
                    STORAGE_KEYS.refreshRate STORAGE_KEYS.retryCount
                    STORAGE_KEYS.retryAfter
                    trmnl_environment trmnl_devices trmnl_selectedDevice
                    trmnl_currentImage trmnl_lastFetch trmnl_nextFetch
                    trmnl_refreshRate trmnl_retryCount trmnl_retryAfter
                    trmnl_firstSetupComplete] ].

Lemma apply_updates_overlay earlier later s :
  apply_updates later (apply_updates earlier s)
  = apply_updates (overlay earlier later) s.
Proof.
  destruct earlier as [e d sd ci lf nf rr rc ra],
    later as [e' d' sd' ci' lf' nf' rr' rc' ra'].
  unfold apply_updates, overlay.
  cbn [Partial.environment Partial.devices Partial.selectedDevice
       Partial.currentImage Partial.lastFetch Partial.nextFetch
       Partial.refreshRate Partial.retryCount Partial.retryAfter].
  apply storage_ext;
    [ destruct e, e' | destruct d, d' | destruct sd, sd' | destruct ci, ci'
    | destruct lf, lf' | destruct nf, nf' | destruct rr, rr'
    | destruct rc, rc' | destruct ra, ra' | ];
    through_writes; reflexivity.
Qed.

(** X17.  Two [updateState] calls in a row act as one call with the
    overlay of their arguments, the later key winning.  The record an
    update returns is the prior record with the defined keys replaced, and
    the empty update changes nothing. *)
Theorem updateState_composes (earlier later : Partial.t) (w : World) :
  (updateState earlier ;; updateState later) w
  = updateState (overlay earlier later) w /\
  (updateState earlier w).1 = Return (merge earlier (stored w)) /\
  updateState Partial.empty w = (Return (stored w), w).
Proof.
  split; [|split].
  - unfold bind. rewrite !updateState_run.
    cbn [localStorage with_storage ticks requests].
    by rewrite apply_updates_overlay.
  - rewrite updateState_run. cbn [fst]. by rewrite state_of_apply_updates.
  - rewrite updateState_run. unfold apply_updates. cbn.
    by rewrite with_storage_id.
Qed.

(** ** Consecutive failures *)

Lemma forced_failure_step env w :
  is_Some (api_key_of w) -> api_failed env ->
  let w' := (perform env (FetchImage true) w).2 in
  retryCount (stored w') = S (retryCount (stored w)) /\
  retryAfter (stored w')
    = Some (last_reading env w' + backoffMs (retryCount (stored w'))) /\
  api_key_of w' = api_key_of w.
Proof.
  intros Hkey Hfail w'.
  assert (Hw' : w' = (fetchImage env true w).2).
  { subst w'. cbn [perform]. unfold bind.
    by destruct (fetchImage env true w) as [[v|e] w1]. }
  rewrite Hw'. clear w' Hw'.
  assert (Hatt : attempted (fetchImage env true) w)
    by (apply fetchImage_reach; split; [exact Hkey | by left]).
  pose proof (fetchImage_backoff env true w) as Hback.
  pose proof (fetchImage_configuration env true w) as Hconf.
  unfold backoff_contract, post in Hback, Hconf.
  destruct Hback as [Hback _].
  destruct Hback as (Hn & t & Ht & Hdelay).
  { split; [exact Hatt | by left]. }
  apply same_configuration_stored in Hconf as (_ & _ & Hsel).
  split; [exact Hn|].
  split; [|unfold api_key_of; by rewrite Hsel].
  rewrite Ht. f_equal. unfold backoffMs. lia.
Qed.

(** X18.  A run of forced refreshes whose metadata requests all fail (a
    network failure, a 429, another non-2xx status other than 401 and 403,
    or an unreadable body) is never cut short by the backoff window: with
    an API key at hand every one of them is sent, the retry count grows by
    the number of calls, the selection is kept, and [retryAfter] ends as
    the last clock reading plus the backoff of the final count. *)
Theorem failures_accumulate (envs : list Env) (w : World) :
  is_Some (api_key_of w) -> Forall api_failed envs ->
  let w' := perform_all (forced_refreshes envs) w in
  retryCount (stored w') = (retryCount (stored w) + length envs)%nat /\
  api_key_of w' = api_key_of w /\
  forall env, last envs = Some env ->
    retryAfter (stored w')
    = Some (last_reading env w' + backoffMs (retryCount (stored w'))).
Proof.
  intros Hkey Hall. revert w Hkey.
  induction Hall as [|env envs Hfail Hall IH]; intros w Hkey w'.
  - split; [cbn; lia|]. split; [reflexivity|]. intros env. discriminate.
  - destruct (forced_failure_step env w Hkey Hfail) as (Hn & Hra & Hk).
    set (w1 := (perform env (FetchImage true) w).2) in *.
    assert (Hkey1 : is_Some (api_key_of w1)) by (by rewrite Hk).
    destruct (IH w1 Hkey1) as (Hn' & Hk' & Hlast).
    change w' with (perform_all (forced_refreshes envs) w1).
    split; [rewrite Hn', Hn; cbn [length]; lia|].
    split; [congruence|].
    intros env' Hlast'.
    destruct envs as [|env2 envs].
    + injection Hlast' as <-. exact Hra.
    + apply Hlast. exact Hlast'.
Qed.
Lemma failures_accumulate_witness :
  let w := world_of (kitchen_store 0 None None) in
  let w' :=
    perform_all (forced_refreshes [offline; answering 500; answering 429]) w in
  retryCount (stored w') = 3%nat /\ retryAfter (stored w') = Some 13040.
Proof.
  intros w w'.
  assert (Hkey : is_Some (api_key_of w)) by (by eexists).
  assert (Hall : Forall api_failed [offline; answering 500; answering 429]).
  { constructor; [exact I|].
    constructor; [split; [unfold unauthorized; cbn; lia | by left]|].
    constructor; [split; [unfold unauthorized; cbn; lia | by left]|].
    constructor. }
  destruct (failures_accumulate _ w Hkey Hall) as (Hn & _ & Hlast).
  split; [exact Hn|].
  pose proof (Hlast (answering 429) eq_refl) as H.
  etransitivity; [exact H|]. vm_compute. reflexivity.
Defined.

(** ** What goes over the network *)

Ltac traffic_leaf :=
  first
    [ exists []; split; [reflexivity | by constructor]
    | eexists [_]; split; [reflexivity|];
      eapply metadata_sent; [first [eassumption | reflexivity]|];
      split; [first [by left | by right]|];
      split; [eexists _, _; split; [|reflexivity]; by (left + right) | done]
    | eexists [_; _]; split; [reflexivity|];
      eapply image_sent; [first [eassumption | reflexivity]| |];
      [ split; [first [by left | by right]|];
        split; [eexists _, _; split; [|reflexivity]; by (left + right) | done]
      | eexists; split; [eassumption|]; by split ] ].

Lemma fetchImage_traffic env forceRefresh w :
  post (fetchImage env forceRefresh) w (fun _ w' =>
    exists new, requests w' = (new ++ requests w)%list /\
                traffic env (environment (stored w)) (api_key_of w) new).
Proof.
  unfold fetchImage, in_backoff, hasCompletedFirstSetup,
    markFirstSetupComplete, api_key_of.
  run; world_simpl; path_facts.
  all: try destruct (bool_decide _); cbn [negb].
  all: traffic_leaf.
Qed.

Lemma fetchNextScreen_traffic env w :
  post (fetchNextScreen env) w (fun _ w' =>
    exists new, requests w' = (new ++ requests w)%list /\
                traffic env (environment (stored w)) (api_key_of w) new).
Proof.
  unfold fetchNextScreen, in_backoff, api_key_of.
  run; world_simpl; path_facts.
  all: traffic_leaf.
Qed.

Lemma triggerSpecialFunction_traffic env w :
  post (triggerSpecialFunction env) w (fun _ w' =>
    exists new, requests w' = (new ++ requests w)%list /\
                traffic env (environment (stored w)) (api_key_of w) new /\
                (length new <= 1)%nat).
Proof.
  unfold triggerSpecialFunction, api_key_of.
  run; world_simpl; path_facts.
  all: first [ exists []; split; [reflexivity|]
             | eexists [_]; split; [reflexivity|] ];
    (split; [|cbn; lia]).
  all: first
    [ by constructor
    | eapply metadata_sent; [first [eassumption | reflexivity]|];
      split; [by left|];
      split; [eexists _, _; split; [|reflexivity]; by right | done] ].
Qed.

Lemma post_discard {A} (m : M A) w (Q : World -> Prop) :
  post m w (fun _ w' => Q w') -> post (m ;; ret tt) w (fun _ w' => Q w').
Proof. unfold post, bind. by destruct (m w) as [[a|e] w']. Qed.

(** X19.  What the operations send.  [fetchDevices] sends one request, to
    [/devices.json], with the session cookie and no API key.  The other
    network operations send nothing, or one request that carries the API
    key (the selected device's, the typed one for [saveManualApiKey]) to a
    screen endpoint of the configured host, without credentials, or that
    request followed by the download of the image which a readable 2xx
    response to it named; the download carries no header and no
    credentials, so the API key never goes to the image host.
    [triggerSpecialFunction] sends at most one request, and [selectDevice],
    [setEnvironment] and [clearState] send none. *)
Theorem requests_disciplined (env : Env) (op : Operation) (w : World) :
  post (perform env op) w (fun _ w' =>
    exists new, requests w' = (new ++ requests w)%list /\
                traffic_of env op w new).
Proof.
  destruct op as [e| | |forceRefresh|device|e|apiKey|];
    cbn [perform traffic_of].
  - apply post_discard.
    eapply post_mono; [apply fetchDevices_frame_requests|].
    intros o w' E. by exists [devices_request e].
  - apply post_discard, fetchNextScreen_traffic.
  - apply post_discard, triggerSpecialFunction_traffic.
  - apply post_discard, fetchImage_traffic.
  - unfold selectDevice. run. by exists [].
  - unfold setEnvironment. run. by exists [].
  - unfold saveManualApiKey.
    apply post_bind, post_updateState, post_try_catch, post_bind.
    eapply post_mono; [apply fetchImage_traffic|].
    intros [v|err] w' (new & E & Htraffic); lazy beta iota; apply post_ret;
      exists new; (split; [exact E|]); revert Htraffic;
      unfold api_key_of, resolve_api_key; world_simpl; done.
  - by exists [].
Qed.

(** ** The manual API key *)

(** X20.  [saveManualApiKey] returns normally on every path.  It replaces
    the device list by the single entry it makes up for the key, under the
    fixed id ["manual"], and selects that entry.  It then sends the
    metadata request exactly when the key is not empty, whatever backoff
    was pending, with that key, and routed by the first-setup flag filed
    under ["manual"]: the flag is shared by all keys entered by hand, so a
    second key goes to [/api/current_screen] once a first one has completed
    its setup. *)
Theorem manual_key_entry (env : Env) (apiKey : string) (w : World) :
  post (saveManualApiKey env apiKey) w (fun o w' =>
    o = Return tt /\
    devices (stored w') = Array [manual_device apiKey] /\
    selectedDevice (stored w') = Some (manual_device apiKey) /\
    (requests w' <> requests w <-> truthy_string apiKey = true) /\
    (forall req, first_request w w' req ->
       req = image_metadata_request (environment (stored w))
               (first_setup_done w "manual") apiKey)).
Proof.
  unfold saveManualApiKey.
  apply post_bind, post_updateState.
  set (w1 := with_storage _ w).
  assert (Hst : stored w1
                = merge {| Partial.environment := None;
                           Partial.devices :=
                             Some (Array [manual_device apiKey]);
                           Partial.selectedDevice :=
                             Some (Some (manual_device apiKey));
                           Partial.currentImage := None;
                           Partial.lastFetch := None;
                           Partial.nextFetch := None;
                           Partial.refreshRate := None;
                           Partial.retryCount := Some 0%nat;
                           Partial.retryAfter := Some None |} (stored w))
    by apply state_of_apply_updates.
  assert (Hkey : api_key_of w1
                 = if truthy_string apiKey then Some apiKey else None)
    by (unfold api_key_of; by rewrite Hst).
  assert (Hflag : forall d, first_setup_done w1 d = first_setup_done w d).
  { intros d. rewrite !first_setup_done_eq. subst w1.
    cbn [localStorage with_storage]. by rewrite firstSetup_apply_updates. }
  assert (Hdev : device_key (stored w1) = "manual")
    by (unfold device_key; by rewrite Hst).
  assert (Henv : environment (stored w1) = environment (stored w))
    by (by rewrite Hst).
  assert (Hguards :
    post (fetchImage env true) w1 (fun _ w' =>
      requests w' <> requests w1 <->
      is_Some (api_key_of w1) /\
      (true = true \/ window_open env w1 = false)))
    by exact (fetchImage_reach env true w1).
  apply post_try_catch, post_bind.
  eapply post_mono;
    [exact (post_and _ _ _ _
              (post_and _ _ _ _
                 (fetchImage_first_request env true w1)
                 (fetchImage_configuration env true w1))
              Hguards)|].
  intros o w' [[Hfirst Hconf] Hreach].
  apply same_configuration_stored in Hconf as (_ & Hdevs & Hsel).
  change (requests w1) with (requests w) in Hreach.
  rewrite Hkey in Hreach.
  assert (Hgoal :
    devices (stored w') = Array [manual_device apiKey] /\
    selectedDevice (stored w') = Some (manual_device apiKey) /\
    (requests w' <> requests w <-> truthy_string apiKey = true) /\
    (forall req, first_request w w' req ->
       req = image_metadata_request (environment (stored w))
               (first_setup_done w "manual") apiKey)).
  { split; [by rewrite Hdevs, Hst|]. split; [by rewrite Hsel, Hst|].
    split.
    - rewrite Hreach. destruct (truthy_string apiKey).
      + split; [done | intros _; split; [by eexists | by left]].
      + split; [intros [[k Hk] _]; discriminate | discriminate].
    - intros req Hreq.
      destruct (Hfirst req) as (k & Hk & ->); [exact Hreq|].
      rewrite Hkey in Hk. rewrite Henv, Hflag, Hdev.
      destruct (truthy_string apiKey); [|discriminate].
      by injection Hk as <-. }
  destruct o as [v|err]; lazy beta iota; apply post_ret; by split.
Qed.

(** ** The callbacks of the hook *)

Lemma fetchImage_returns env forceRefresh w :
  post (fetchImage env forceRefresh) w (fun o _ => exists v, o = Return v).
Proof.
  unfold fetchImage, in_backoff, hasCompletedFirstSetup,
    markFirstSetupComplete.
  run; by eexists.
Qed.

(** X21.  [loadImage] does nothing at all while the guard ref is set.
    Otherwise it runs [fetchImage] once and ends with the guard set, the
    loading flag cleared and the state copy refreshed from the store; the
    error text is the fixed check-your-API-key message exactly when
    [fetchImage] returned [null] or an empty string, whatever the cause,
    and is never a thrown error's message.  Until the guard is re-opened,
    a further [loadImage], forced or not, is dropped. *)
Theorem loadImage_guard
  (env : Env) (forceRefresh : bool) (h : Hook.t) (w : World) :
  post (loadImage env forceRefresh h) w (fun o w' =>
    exists h', o = Return h' /\
      if Hook.fetchInProgressRef h then h' = h /\ w' = w
      else
        Hook.fetchInProgressRef h' = true /\
        Hook.isLoading h' = false /\
        Hook.state h' = stored w' /\
        (exists imageUrl,
           fetchImage env forceRefresh w = (Return imageUrl, w') /\
           Hook.error h'
           = if no_image imageUrl then Some CheckApiKey else None) /\
        forall env2 forceRefresh2,
          loadImage env2 forceRefresh2 h' w' = (Return h', w')).
Proof.
  unfold loadImage.
  destruct (Hook.fetchInProgressRef h) eqn:Hguard.
  - apply post_ret. by exists h.
  - pose proof (fetchImage_returns env forceRefresh w) as Hret.
    unfold post in *. unfold bind, try_catch, refreshState, getState,
      getStorageItem, ret.
    destruct (fetchImage env forceRefresh w) as [o w'] eqn:Hrun.
    cbn [fst snd] in *. destruct Hret as [imageUrl ->].
    cbn [bind fst snd].
    eexists. split; [reflexivity|].
    destruct (no_image imageUrl) eqn:Hnone; cbn.
    all: split; [reflexivity|]; split; [reflexivity|].
    all: split; [reflexivity|].
    all: split; [exists imageUrl; by rewrite Hnone | reflexivity].
Qed.

Lemma loadImage_guard_witness :
  let env := answering 429 in
  let h := {| Hook.state := initial_state; Hook.isLoading := false;
              Hook.error := None; Hook.fetchInProgressRef := false |} in
  let w := world_of (kitchen_store 0 None None) in
  let first := loadImage env false h w in
  exists h',
    first.1 = Return h' /\ Hook.error h' = None /\
    retryCount (Hook.state h') = 1%nat /\
    loadImage offline true h' first.2 = (Return h', first.2).
Proof.
  intros env h w first.
  destruct (loadImage_guard env false h w)
    as (h' & Ho & Hg & Hl & Hst & (v & Hrun & Herr) & Hdrop).
  exists h'. split; [exact Ho|].
  assert (Hv : v = Some "data:image/png;base64,AAAA").
  { vm_compute in Hrun. congruence. }
  split; [rewrite Herr, Hv; reflexivity|].
  split; [rewrite Hst; vm_compute; reflexivity|].
  apply Hdrop.
Defined.

(** X22.  [loadDevices] sends the listing request to the host of the
    environment in the hook's state copy, always ends with the loading flag
    cleared, and leaves the guard ref alone.  A failed listing is reported
    as no-devices-found when no list is cached and is not reported at all
    when one is: the cause never reaches the error text.  With [null]
    stored as the device list the [TypeError] of [fetchDevices] becomes the
    error text and the state copy is not refreshed.  When the listing
    succeeds the copy is refreshed and the error tells whether the list is
    empty. *)
Theorem loadDevices_reports (env : Env) (h : Hook.t) (w : World) :
  post (loadDevices env h) w (fun o w' =>
    exists h', o = Return h' /\
      Hook.isLoading h' = false /\
      Hook.fetchInProgressRef h' = Hook.fetchInProgressRef h /\
      requests w'
        = devices_request (environment (Hook.state h)) :: requests w /\
      (forall items,
         devices (stored w) = Array items -> devices_failed env ->
         localStorage w' = localStorage w /\
         Hook.error h'
         = match items with
           | [] => Some NoDevicesFound
           | _ => None
           end) /\
      (devices (stored w) = Null -> ~ devices_listed env w ->
       Hook.error h' = Some (Thrown TypeError) /\
       Hook.state h' = Hook.state h) /\
      (devices_listed env w ->
       Hook.state h' = stored w' /\
       Hook.error h'
       = if no_devices (devices (stored w')) then Some NoDevicesFound
         else None)).
Proof.
  unfold loadDevices, fetchDevices, refreshState, devices_failed,
    devices_listed.
  apply post_bind, post_try_catch, post_bind, post_bind, post_getStorageItem.
  change (default (Array []) (read STORAGE_KEYS.devices (localStorage w)))
    with (devices (stored w)).
  destruct (devices (stored w)) as [|stored_items] eqn:Hstored;
    unfold length_of.
  all: run; world_simpl; path_facts.
  all: eexists; (split; [reflexivity|]).
  all: repeat match goal with
       | |- context [if no_devices ?d then _ else _] =>
           destruct (no_devices d) eqn:?
       end.
  all: cbn [Hook.isLoading Hook.fetchInProgressRef Hook.error Hook.state
            setIsLoading setError setState].
  all: (split; [reflexivity|]); (split; [reflexivity|]);
    (split; [reflexivity|]).
  all: (split;
        [ intros items0 Hitems Hfail
        | split;
          [ intros Hnull Hnot
          | intros (r0 & v & Hr & Hok & Hbody & Hv) ] ]).
  all: try discriminate.
  all: try (split; reflexivity).
  all: try (exfalso; simplify_eq; replies_agree; unfold unauthorized in *;
            first [congruence | lia | intuition congruence]).
  all: try (exfalso; destruct Hfail; simplify_eq; replies_agree;
            first [congruence | lia]).
  all: try (exfalso; apply Hnot; eexists _, _;
            split; [reflexivity|]; split; [done|]; split; [eassumption|];
            first [by left | right; congruence]).
  all: try (injection Hitems as <-; destruct stored_items;
            cbn [length Nat.ltb Nat.leb Nat.eqb no_devices] in *;
            by split).
Qed.

(** ** The retry state *)

Lemma backoffMs_pos n : 0 < backoffMs n.
Proof.
  unfold backoffMs.
  assert (0 < 2 ^ Z.of_nat n) by (apply Z.pow_pos_nonneg; lia).
  lia.
Qed.

Lemma retry_consistent_written w w' :
  retry_written_together w w' ->
  retry_consistent (stored w) -> retry_consistent (stored w').
Proof.
  unfold retry_written_together, retry_consistent, stored, state_of; cbn.
  intros [(-> & ->) | [(-> & ->) | [(n & t & -> & -> & Ht) | (-> & ->)]]];
    cbn; intros H; auto.
  right. split; [lia | eauto].
Qed.

Lemma retry_written_together_trans w1 w2 w3 :
  retry_written_together w1 w2 -> retry_written_together w2 w3 ->
  retry_written_together w1 w3.
Proof.
  unfold retry_written_together; cbn.
  intros H12 [(-> & ->) | H23]; [exact H12 | right; exact H23].
Qed.

Ltac retry_paths :=
  run; world_simpl; slots; through_writes;
  first
    [ left; split; reflexivity
    | right; left; split; reflexivity
    | right; right; left; eexists _, _;
      split; [f_equal; apply Nat.add_1_r|];
      split; [reflexivity|];
      match goal with
      | |- 0 < Z.of_N ?c + backoffMs ?n =>
          pose proof (backoffMs_pos n); lia
      end
    | right; right; right; split; reflexivity ].

Lemma fetchImage_retry env forceRefresh w :
  post (fetchImage env forceRefresh) w (fun _ w' =>
    retry_written_together w w').
Proof.
  unfold fetchImage, in_backoff, hasCompletedFirstSetup,
    markFirstSetupComplete, retry_written_together.
  retry_paths.
Qed.

Lemma perform_retry env op w :
  post (perform env op) w (fun _ w' => retry_written_together w w').
Proof.
  destruct op as [e| | |forceRefresh|device|e|apiKey|]; cbn [perform].
  - unfold fetchDevices, length_of, retry_written_together. retry_paths.
  - unfold fetchNextScreen, in_backoff, retry_written_together. retry_paths.
  - unfold triggerSpecialFunction, retry_written_together. retry_paths.
  - apply post_bind. eapply post_mono; [apply fetchImage_retry|].
    intros [v|err] w'; done.
  - unfold selectDevice, retry_written_together. retry_paths.
  - unfold setEnvironment, retry_written_together. retry_paths.
  - unfold saveManualApiKey.
    apply post_bind, post_updateState, post_try_catch, post_bind.
    eapply post_mono; [apply fetchImage_retry|].
    intros [v|err] w' H; lazy beta iota; [apply post_ret|apply post_ret];
      (eapply retry_written_together_trans; [|exact H]);
      right; left; split; reflexivity.
  - unfold clearState, post, retry_written_together; cbn.
    right; right; right; done.
Qed.

(** X24.  The two retry fields move together.  Every operation leaves
    [retryCount] and [retryAfter] alone, or resets both (count 0, no time),
    or stores a positive count together with a positive time, or removes
    both.  So in every state reached from the empty store a failure is
    counted exactly when a backoff time is set, and that time is never 0:
    the window test of the next call always sees it. *)
Theorem retry_state_invariant :
  (forall env op w,
     post (perform env op) w (fun _ w' =>
       retry_written_together w w' /\
       (retry_consistent (stored w) -> retry_consistent (stored w')))) /\
  (forall script,
     retry_consistent (stored (perform_all script (world_of empty_storage)))).
Proof.
  assert (Hstep : forall env op w,
            post (perform env op) w (fun _ w' =>
              retry_written_together w w' /\
              (retry_consistent (stored w) -> retry_consistent (stored w')))).
  { intros env op w. eapply post_mono; [apply perform_retry|].
    intros o w' H. split; [exact H | by apply retry_consistent_written]. }
  split; [exact Hstep|].
  intros script.
  assert (Hall : forall w, retry_consistent (stored w) ->
                           retry_consistent (stored (perform_all script w))).
  { induction script as [|[env op] script IH]; intros w Hw; [exact Hw|].
    cbn [perform_all fold_left]. apply IH.
    destruct (Hstep env op w) as [_ H]. by apply H. }
  apply Hall. by left.
Qed.

(** ** Honouring the backoff *)

(** A window that is closed although a positive time is set: the clock
    has reached that time. *)
Lemma window_closed env w t :
  retryAfter (stored w) = Some t -> 0 < t ->
  window_open env w = false -> t <= now_at env w.
Proof.
  unfold window_open, truthy_number. intros -> Ht.
  destruct (Z.eqb_spec t 0) as [->|_]; [lia|]. cbn [negb andb].
  by intros ?%Z.ltb_ge.
Qed.

Lemma held_back_after (env env2 : Env) (w w' : World) :
  (failed_attempt env w w' ->
   retryCount (stored w') = S (retryCount (stored w)) /\
   exists t, retryAfter (stored w') = Some t /\
             t - last_reading env w'
             = Z.min (1000 * 2 ^ Z.of_nat (retryCount (stored w'))) 300000) ->
  failed_attempt env w w' ->
  held_back env2 w' (last_reading env w' + backoffMs (retryCount (stored w'))).
Proof.
  intros Hcontract Hfail.
  destruct (Hcontract Hfail) as (_ & t & Ht & Hdelay).
  fold (backoffMs (retryCount (stored w'))) in Hdelay.
  pose proof (backoffMs_pos (retryCount (stored w'))) as Hpos.
  assert (Hnow : 0 <= last_reading env w') by (unfold last_reading; lia).
  replace (last_reading env w' + backoffMs (retryCount (stored w')))
    with t by lia.
  split.
  - intros [_ [?|Hwin]]%fetchImage_reach; [done|].
    apply (window_closed env2 w' t); [exact Ht | lia | exact Hwin].
  - intros [_ Hwin]%fetchNextScreen_reach.
    apply (window_closed env2 w' t); [exact Ht | lia | exact Hwin].
Qed.

(** X25.  The backoff is honoured by the unforced calls and by no other.
    After a failed attempt of [fetchImage] or of [fetchNextScreen], a later
    [fetchImage] without [forceRefresh] or [fetchNextScreen] sends a
    request only if the clock it reads has reached the time of the failure
    plus the backoff of the new retry count.  A forced [fetchImage] is
    sent at once whenever an API key is at hand. *)
Theorem backoff_honoured
  (env env2 : Env) (forceRefresh : bool) (w : World) :
  post (fetchImage env forceRefresh) w (fun _ w' =>
    failed_attempt env w w' ->
    held_back env2 w'
      (last_reading env w' + backoffMs (retryCount (stored w'))) /\
    attempted (fetchImage env2 true) w') /\
  post (fetchNextScreen env) w (fun _ w' =>
    failed_attempt env w w' ->
    held_back env2 w'
      (last_reading env w' + backoffMs (retryCount (stored w')))).
Proof.
  split.
  - pose proof (fetchImage_backoff env forceRefresh w) as Hcontract.
    pose proof (fetchImage_configuration env forceRefresh w) as Hconf.
    unfold backoff_contract, post in *.
    destruct Hcontract as [Hcontract _].
    intros Hfail.
    split; [by apply (held_back_after env env2 w)|].
    destruct (fetchImage_attempted_key env forceRefresh w (proj1 Hfail))
      as [k Hk].
    apply same_configuration_stored in Hconf as (_ & _ & Hsel).
    apply fetchImage_reach. split; [|by left].
    unfold api_key_of. rewrite Hsel. by exists k.
  - pose proof (fetchNextScreen_backoff env w) as Hcontract.
    unfold backoff_contract, post in *.
    destruct Hcontract as [Hcontract _].
    intros Hfail. by apply (held_back_after env env2 w).
Qed.

Lemma backoff_honoured_witness :
  let w := world_of (kitchen_store 0 None None) in
  let w' := (fetchImage (answering 429) false w).2 in
  retryAfter (stored w') = Some 7000 /\
  (forall env2, attempted (fetchImage env2 false) w' ->
                7000 <= now_at env2 w') /\
  attempted (fetchImage offline true) w'.
Proof.
  intros w w'.
  destruct (backoff_honoured (answering 429) offline false w) as [H _].
  assert (Hfail : failed_attempt (answering 429) w w').
  { split; [vm_compute; discriminate|]. left.
    split; [unfold unauthorized; cbn; lia | by left]. }
  split; [vm_compute; reflexivity|].
  split; [|exact (proj2 (H Hfail))].
  intros env2 Hatt.
  destruct (backoff_honoured (answering 429) env2 false w) as [H2 _].
  destruct (H2 Hfail) as [[Hheld _] _].
  eapply Z.le_trans; [|exact (Hheld Hatt)].
  vm_compute. discriminate.
Defined.

(** ** Polling in the steady state *)



